(** * KV-cache quantization evaluator: a shallow embedding of [src/evaluator.py]

    The embedding follows the Python source function by function.

    - Python and torch floating-point numbers are modelled as real numbers
      ([R]); rounding, NaN and infinities are outside the model.
    - A torch tensor of rank [n] is an [n]-fold nested list of reals; token
      id tensors are nested lists of integers.
    - Exceptions are values of [exn]; a computation that may raise lives in
      [result], one that also calls the model or renders diagnostics lives
      in [Eff], which in addition records the observable events, in order.
    - The external collaborators (model, quantizers, questions) are records
      of the attributes and methods the evaluator uses.
    - The file system is a finite map from paths to contents: the cache
      file holds a list of records, and every figure the diagnostics save
      is a file as well.  Stored and live fingerprints are compared with
      Python's [==], under which numbers are equal by value. *)

From Stdlib Require Import Reals Lra Lia ZArith List String Bool.
From stdpp Require Import gmap strings.
Import ListNotations.
Open Scope R_scope.

(** ** Exceptions and the two monads *)

Inductive exn : Type :=
| AssertionError
| ZeroDivisionError
| TypeError
| IndexError
| ValueError
| RuntimeError
| JSONDecodeError
| UnicodeDecodeError
| ExternalError (msg : string).

Inductive result (A : Type) : Type :=
| Ok (a : A)
| Err (e : exn).
Arguments Ok {A} a.
Arguments Err {A} e.

Definition rbind {A B} (m : result A) (k : A -> result B) : result B :=
  match m with
  | Ok a => k a
  | Err e => Err e
  end.

Notation "'let!' p ':=' m 'in' k" := (rbind m (fun p => k))
  (at level 10, p pattern, m at level 100, k at level 200).

(** What an observer of the process can see besides the returned value. *)
Inductive event : Type :=
| EvForward                 (* one call of [model.forward] *)
| EvPlot (label : string)   (* one series or histogram drawn *)
| EvSaveFig (path : string) (* [plt.savefig] *)
| EvPrint (line : string).  (* one [print] *)

Definition Eff (A : Type) : Type := (result A * list event)%type.

Definition eret {A} (a : A) : Eff A := (Ok a, []).
Definition lift {A} (m : result A) : Eff A := (m, []).
Definition emit (e : event) : Eff unit := (Ok tt, [e]).

Definition ebind {A B} (m : Eff A) (k : A -> Eff B) : Eff B :=
  match m with
  | (Ok a, evs) => let '(r, evs') := k a in (r, evs ++ evs')
  | (Err e, evs) => (Err e, evs)
  end.

Notation "'run!' p ':=' m 'in' k" := (ebind m (fun p => k))
  (at level 10, p pattern, m at level 100, k at level 200).

Fixpoint mapM {A B} (f : A -> result B) (l : list A) : result (list B) :=
  match l with
  | [] => Ok []
  | a :: l' => let! b := f a in let! bs := mapM f l' in Ok (b :: bs)
  end.

(** Python's [assert]. *)
Definition py_assert (b : bool) : result unit :=
  if b then Ok tt else Err AssertionError.

(** ** Python sequences *)

Definition enumerate {A} (l : list A) : list (nat * A) :=
  combine (seq 0 (List.length l)) l.

(** [l[i]] for an integer [i]: negative indices count from the end. *)
Definition py_index {A} (l : list A) (i : Z) : result A :=
  let n := Z.of_nat (List.length l) in
  let j := if (i <? 0)%Z then (i + n)%Z else i in
  if ((0 <=? j)%Z && (j <? n)%Z)%bool
  then match nth_error l (Z.to_nat j) with
       | Some a => Ok a
       | None => Err IndexError
       end
  else Err IndexError.

(** [l[a:b]] for non-negative bounds: clamped, never an error. *)
Definition py_slice {A} (l : list A) (a b : nat) : list A :=
  skipn a (firstn b l).

Definition rsum (l : list R) : R := fold_left Rplus l 0.

(** Float division by a Python [int]. *)
Definition py_div_int (x : R) (n : nat) : result R :=
  if (n =? 0)%nat then Err ZeroDivisionError else Ok (x / INR n).

(** [math.sqrt] *)
Definition math_sqrt (x : R) : result R :=
  if Rlt_dec x 0 then Err ValueError else Ok (sqrt x).

(** ** Tensors

    Same-rank broadcasting of torch's elementwise operations is modelled:
    along every dimension the two sizes are equal or one of them is 1. *)

Class Tensor (T : Type) : Type := {
  tsub : T -> T -> result T;
  tmap : (R -> R) -> T -> T;
  flat : T -> list R;
  shape : T -> list nat
}.

#[global] Instance scalar_tensor : Tensor R := {
  tsub x y := Ok (x - y);
  tmap f x := f x;
  flat x := [x];
  shape _ := []
}.

Fixpoint zipM {A} (f : A -> A -> result A) (la lb : list A) : result (list A) :=
  match la, lb with
  | a :: la', b :: lb' =>
      let! c := f a b in let! cs := zipM f la' lb' in Ok (c :: cs)
  | _, _ => Ok []
  end.

Definition broadcast_sub {A} (f : A -> A -> result A) (la lb : list A)
  : result (list A) :=
  if (List.length la =? List.length lb)%nat then zipM f la lb
  else match la, lb with
       | [a], _ => mapM (fun b => f a b) lb
       | _, [b] => mapM (fun a => f a b) la
       | _, _ => Err RuntimeError
       end.

#[global] Instance list_tensor {T} `{Tensor T} : Tensor (list T) := {
  tsub := broadcast_sub tsub;
  tmap f := map (tmap f);
  flat l := concat (map flat l);
  shape l := List.length l :: match l with [] => [] | t :: _ => shape t end
}.

Abbreviation Tensor1 := (list R) (only parsing).
Abbreviation Tensor2 := (list Tensor1) (only parsing).
Abbreviation Tensor3 := (list Tensor2) (only parsing).
Abbreviation Tensor4 := (list Tensor3) (only parsing).
Abbreviation Tensor5 := (list Tensor4) (only parsing).

(** [t.to(device)]: placement does not change the values. *)
Definition to {T} (device : string) (t : T) : T := t.

(** [t ** 2] *)
Definition tpow2 {T} `{Tensor T} (t : T) : T := tmap (fun x => x ^ 2) t.

(** [t.mean().item()]; on an empty tensor torch yields NaN, which has no
    counterpart here (the quotient [0 / 0] of [R] stands in its place). *)
Definition tmean {T} `{Tensor T} (t : T) : R :=
  rsum (flat t) / INR (List.length (flat t)).

(** [torch.stack]: a non-empty list of tensors of one shape. *)
Definition stack {T} `{Tensor T} (l : list T) : result (list T) :=
  match l with
  | [] => Err RuntimeError
  | t :: ts =>
      if forallb (fun u => bool_decide (shape u = shape t)) ts
      then Ok l else Err RuntimeError
  end.

(** [torch.arange(n)] *)
Definition arange (n : Z) : result (list Z) :=
  if (n <? 0)%Z then Err RuntimeError
  else Ok (map Z.of_nat (seq 0 (Z.to_nat n))).

(** The index tensors of an advanced index are broadcast against each
    other before the gather. *)
Definition broadcast_index (js ts : list Z) : result (list (Z * Z)) :=
  if (List.length js =? List.length ts)%nat then Ok (combine js ts)
  else match js, ts with
       | [j], _ => Ok (map (fun t => (j, t)) ts)
       | _, [t] => Ok (map (fun j => (j, t)) js)
       | _, _ => Err IndexError
       end.

(** [F.log_softmax(x, dim=-1)] on one row of logits. *)
Definition log_softmax_row (row : Tensor1) : Tensor1 :=
  let z := ln (rsum (map exp row)) in
  map (fun x => x - z) row.

(** ** Data model *)

(** Values a quantizer may list in its [params] mapping. *)
Inductive jval : Type :=
| JNull
| JBool (b : bool)
| JInt (z : Z)
| JFloat (r : R)
| JStr (s : string).

#[global] Instance R_eq_dec : EqDecision R := Req_dec_T.

(** Python's [==] on such values.  Numbers are compared by value across
    [bool], [int] and [float] ([True == 1], [4 == 4.0]); [None] equals
    [None] only, a string the same string only. *)
Definition as_number (v : jval) : option R :=
  match v with
  | JBool b => Some (if b then 1 else 0)
  | JInt z => Some (IZR z)
  | JFloat r => Some r
  | JNull | JStr _ => None
  end.

Definition py_eq (a b : jval) : Prop :=
  match a, b with
  | JNull, JNull => True
  | JStr s, JStr t => s = t
  | _, _ => match as_number a, as_number b with
            | Some x, Some y => x = y
            | _, _ => False
            end
  end.

#[global] Instance py_eq_dec : RelDecision py_eq.
Proof. intros a b. destruct a, b; simpl; apply _. Defined.

(** [==] on two [dict]s with string keys: the same keys, and [==] values
    under each key. *)
Definition dict_eq (d1 d2 : gmap string jval) : Prop :=
  map_relation (fun _ => py_eq) (fun _ _ => False) (fun _ _ => False) d1 d2.

#[global] Instance dict_eq_dec : RelDecision dict_eq.
Proof. unfold dict_eq. apply _. Defined.

(** The attention tensors of one forward pass, one per layer. *)
Abbreviation AttentionType := (list Tensor4) (only parsing).
(** [past_key_values]: one (key, value) pair per layer. *)
Abbreviation KVCache := (list (Tensor4 * Tensor4)) (only parsing).

Module Question.
Record t : Type := {
  input_ids : list (list Z);   (* [choice][position] *)
  question_length : nat;
  choice_length : list nat;
  answer_idx : Z
}.
End Question.

Module Model.
Record output : Type := {
  logits : Tensor3;            (* [choice][position][vocabulary] *)
  attentions : AttentionType;  (* per layer [choice][head][query][key] *)
  past_key_values : KVCache    (* per layer [choice][head][position][embed] *)
}.
Record t : Type := {
  name_or_path : string;
  forward : list (list Z) -> option KVCache -> result output
}.
End Model.

Module Quantizer.
Record t : Type := {
  level : string;
  params : gmap string jval;
  quantize : Tensor5 -> AttentionType -> result (Tensor5 * R);
  calc_quantized_cache_size_per_token : R -> Model.t -> result R
}.
End Quantizer.

(** [answer_log_probability] is the one field the source may leave at
    Python's [None] (no choice matched [answer_idx]). *)
Record EvaluationResult : Type := {
  accuracy : R;
  accuracy_confidence : R;
  answer_log_probability : option R;
  quantization_error : R;
  key_quantization_error : R;
  value_quantization_error : R;
  attention_error : R;
  logit_error : R;
  average_n_bits : R;
  key_average_n_bits : R;
  value_average_n_bits : R;
  average_size : R;
  key_average_size : R;
  value_average_size : R
}.

(** [EvaluationResult()] with the dataclass defaults. *)
Definition EvaluationResult_default : EvaluationResult := {|
  accuracy := 0; accuracy_confidence := 0; answer_log_probability := Some 0;
  quantization_error := 0; key_quantization_error := 0;
  value_quantization_error := 0; attention_error := 0; logit_error := 0;
  average_n_bits := 0; key_average_n_bits := 0; value_average_n_bits := 0;
  average_size := 0; key_average_size := 0; value_average_size := 0 |}.

Record Evaluator : Type := {
  device : string;
  version : string;
  model : Model.t;
  questions : list Question.t;
  key_quantizer : Quantizer.t;
  value_quantizer : Quantizer.t;
  enable_draw_cache_insights : bool
}.

(** [Evaluator.__init__] *)
Definition Evaluator_init (device version : string) (model : Model.t)
    (questions : list Question.t) (key_quantizer value_quantizer : Quantizer.t)
    (draw_cache_insights : bool) : Eff Evaluator :=
  let self := {| device := device; version := version; model := model;
                 questions := questions; key_quantizer := key_quantizer;
                 value_quantizer := value_quantizer;
                 enable_draw_cache_insights := draw_cache_insights |} in
  if draw_cache_insights then
    run! _ := lift (py_assert (String.eqb (Quantizer.level key_quantizer) "token")) in
    run! _ := lift (py_assert (String.eqb (Quantizer.level value_quantizer) "token")) in
    eret self
  else eret self.

(** The fingerprint: a mapping with five fixed keys. *)
Record Params : Type := {
  p_version : string;
  p_model_name : string;
  p_question_count : nat;
  p_key_quantizer : gmap string jval;
  p_value_quantizer : gmap string jval
}.

Definition params (self : Evaluator) : Params := {|
  p_version := version self;
  p_model_name := Model.name_or_path (model self);
  p_question_count := List.length (questions self);
  p_key_quantizer := Quantizer.params (key_quantizer self);
  p_value_quantizer := Quantizer.params (value_quantizer self) |}.

(** [==] on two fingerprints.  The version and the model name are strings
    and the question count an [int] on both sides; the quantizers'
    mappings hold values of any of the kinds above. *)
Definition params_eq (p1 p2 : Params) : Prop :=
  p_version p1 = p_version p2 /\
  p_model_name p1 = p_model_name p2 /\
  p_question_count p1 = p_question_count p2 /\
  dict_eq (p_key_quantizer p1) (p_key_quantizer p2) /\
  dict_eq (p_value_quantizer p1) (p_value_quantizer p2).

#[global] Instance params_eq_dec : RelDecision params_eq.
Proof. intros p1 p2. unfold params_eq. apply _. Defined.

(** ** Tensor error metrics *)

Definition _calc_tensor_error {T} `{Tensor T} (self : Evaluator)
    (tensor1 tensor2 : T) : result R :=
  let! d := tsub (to (device self) tensor1) (to (device self) tensor2) in
  Ok (tmean (tpow2 d)).

Definition _calc_attention_error (self : Evaluator)
    (attention1 attention2 : AttentionType) : result R :=
  let! errs := mapM (fun '(attn1, attn2) => _calc_tensor_error self attn1 attn2)
                    (combine attention1 attention2) in
  py_div_int (rsum errs) (List.length attention1).

(** ** Diagnostics *)

(** [cache[:,0,:,:,:]] *)
Definition first_batch_item (cache : Tensor5) : result (list Tensor3) :=
  mapM (fun layer => py_index layer 0%Z) cache.

(** [cache[:,0,:,1,:].reshape(-1)] *)
Definition second_token_values (cache : Tensor5) : result (list R) :=
  let! sel := mapM (fun layer =>
                let! item := py_index layer 0%Z in
                mapM (fun head => py_index head 1%Z) item) cache in
  Ok (flat sel).

Fixpoint each_cache (f : string * Tensor5 -> Eff unit)
    (caches : list (string * Tensor5)) : Eff unit :=
  match caches with
  | [] => eret tt
  | c :: cs => run! _ := f c in each_cache f cs
  end.

(** The numbers drawn and printed are not part of the events; which
    artifacts are produced, in which order, and what can fail, is. *)
Definition draw_cache_insights (self : Evaluator)
    (caches : list (string * Tensor5)) : Eff unit :=
  run! _ := lift (py_assert (String.eqb (Quantizer.level (key_quantizer self)) "token")) in
  run! _ := lift (py_assert (String.eqb (Quantizer.level (value_quantizer self)) "token")) in
  run! _ := each_cache (fun '(name, cache) =>
              run! _ := lift (first_batch_item cache) in
              emit (EvPlot name)) caches in
  run! _ := emit (EvSaveFig "figs/cache_std.png") in
  run! _ := emit (EvPrint "(min/max/std/mean)") in
  run! _ := each_cache (fun '(name, cache) =>
              run! values := lift (second_token_values cache) in
              run! _ := lift (match values with
                              | [] => Err ValueError  (* min of an empty array *)
                              | _ => Ok tt
                              end) in
              run! _ := emit (EvPrint name) in
              emit (EvPlot name)) caches in
  emit (EvSaveFig "figs/cache_distribution.png").

(** ** Evaluation of one question *)

(** [t[:, :, rows, cols]] on a rank-4 tensor. *)
Definition slice4 (rows : Tensor2 -> Tensor2) (cols : Tensor1 -> Tensor1)
    (t : Tensor4) : Tensor4 :=
  map (map (fun m => map cols (rows m))) t.

Definition all_ {A} (x : A) : A := x.   (* the full slice [:] *)

(** [self.model.forward(...)], observed as one event. *)
Definition model_forward (self : Evaluator) (ids : list (list Z))
    (past : option KVCache) : Eff Model.output :=
  run! _ := emit EvForward in
  lift (Model.forward (model self) ids past).

(** Lines 94-96: the length-normalised log-probability of one choice. *)
Definition choice_score (first_word_log_softmax : Tensor2)
    (quantized_log_softmax : Tensor3) (input_ids : list (list Z))
    (question_len choice_idx choice_len : nat) : result R :=
  let! first_token :=
    (let! row := py_index input_ids (Z.of_nat choice_idx) in
     py_index row (Z.of_nat question_len)) in
  let! first :=
    (let! row := py_index first_word_log_softmax (Z.of_nat choice_idx) in
     py_index row first_token) in
  let! positions := arange (Z.of_nat choice_len - 1) in
  let! ids_row := py_index input_ids (Z.of_nat choice_idx) in
  let tokens := py_slice ids_row (question_len + 1) (question_len + choice_len) in
  let! where_ := broadcast_index positions tokens in
  let! log_probs := py_index quantized_log_softmax (Z.of_nat choice_idx) in
  let! picked := mapM (fun '(j, t) =>
                   let! row := py_index log_probs j in py_index row t) where_ in
  let quantized_log_probability := first + rsum picked in
  py_div_int quantized_log_probability choice_len.

(** The loop state: [max_log_probability], [max_choice_idx],
    [answer_log_probability]; all start at [None]. *)
Definition scan_state : Type := (option R * option nat * option R)%type.

Definition scan_step (answer_idx : Z) (st : scan_state)
    (choice_idx : nat) (quantized_log_probability : R) : scan_state :=
  let '(max_log_probability, max_choice_idx, answer_lp) := st in
  let answer_lp' :=
    if (Z.of_nat choice_idx =? answer_idx)%Z
    then Some quantized_log_probability else answer_lp in
  match max_log_probability with
  | None => (Some quantized_log_probability, Some choice_idx, answer_lp')
  | Some m =>
      if Rgt_dec quantized_log_probability m
      then (Some quantized_log_probability, Some choice_idx, answer_lp')
      else (max_log_probability, max_choice_idx, answer_lp')
  end.

Fixpoint scoring_loop (score : nat -> nat -> result R) (answer_idx : Z)
    (choices : list (nat * nat)) (st : scan_state) : result scan_state :=
  match choices with
  | [] => Ok st
  | (choice_idx, choice_len) :: rest =>
      let! s := score choice_idx choice_len in
      scoring_loop score answer_idx rest (scan_step answer_idx st choice_idx s)
  end.

(** [1.0 if max_choice_idx == question.answer_idx else 0.0] *)
Definition hit (max_choice_idx : option nat) (answer_idx : Z) : R :=
  match max_choice_idx with
  | Some i => if (Z.of_nat i =? answer_idx)%Z then 1 else 0
  | None => 0
  end.

Definition _evaluate_single (self : Evaluator) (idx : nat)
    (question : Question.t) : Eff EvaluationResult :=
  let question_len := Question.question_length question in
  (* Forward before quantization *)
  let input_ids := to (device self) (Question.input_ids question) in
  run! res := model_forward self input_ids None in
  (* Quantize key/value cache *)
  let question_attentions :=
    map (fun attn => to (device self)
           (slice4 (firstn question_len) (firstn question_len) attn))
        (Model.attentions res) in
  run! key_cache :=
    lift (stack (map (fun '(key, _) =>
            to (device self) (slice4 (firstn question_len) all_ key))
          (Model.past_key_values res))) in
  run! value_cache :=
    lift (stack (map (fun '(_, value) =>
            to (device self) (slice4 (firstn question_len) all_ value))
          (Model.past_key_values res))) in
  run! (quantized_key_cache, key_average_n_bits) :=
    lift (Quantizer.quantize (key_quantizer self) key_cache question_attentions) in
  run! (quantized_value_cache, value_average_n_bits) :=
    lift (Quantizer.quantize (value_quantizer self) value_cache question_attentions) in
  let quantized_kvcache := combine quantized_key_cache quantized_value_cache in
  run! _ :=
    (if (enable_draw_cache_insights self && (idx =? 0)%nat)%bool
     then draw_cache_insights self
            [("Key cache"%string, key_cache);
             ("Quantized key cache"%string, quantized_key_cache);
             ("Value cache"%string, value_cache);
             ("Quantized value cache"%string, quantized_value_cache)]
     else eret tt) in
  (* Forward after quantization *)
  run! quantized_res :=
    model_forward self (map (skipn question_len) input_ids)
                  (Some quantized_kvcache) in
  (* Calculate log probabilities *)
  run! last_prefix_logits :=
    lift (mapM (fun row => py_index row (Z.of_nat question_len - 1))
               (Model.logits res)) in
  let first_word_log_softmax := map log_softmax_row last_prefix_logits in
  let quantized_log_softmax :=
    map (map log_softmax_row) (Model.logits quantized_res) in
  run! (_, max_choice_idx, answer_lp) :=
    lift (scoring_loop
            (choice_score first_word_log_softmax quantized_log_softmax
                          input_ids question_len)
            (Question.answer_idx question)
            (enumerate (Question.choice_length question))
            (None, None, None)) in
  (* Calculate quantization metrics *)
  run! key_quantization_error :=
    lift (_calc_tensor_error self key_cache quantized_key_cache) in
  run! value_quantization_error :=
    lift (_calc_tensor_error self value_cache quantized_value_cache) in
  run! attention_error :=
    lift (_calc_attention_error self
            (map (fun attn => to (device self)
                    (slice4 (skipn question_len) (firstn question_len) attn))
                 (Model.attentions res))
            (map (fun attn => to (device self)
                    (slice4 all_ (firstn question_len) attn))
                 (Model.attentions quantized_res))) in
  run! logit_error :=
    lift (_calc_tensor_error self
            (map (skipn question_len) (Model.logits res))
            (Model.logits quantized_res)) in
  run! key_average_size :=
    lift (Quantizer.calc_quantized_cache_size_per_token
            (key_quantizer self) key_average_n_bits (model self)) in
  run! value_average_size :=
    lift (Quantizer.calc_quantized_cache_size_per_token
            (value_quantizer self) value_average_n_bits (model self)) in
  eret {|
    accuracy := hit max_choice_idx (Question.answer_idx question);
    accuracy_confidence := 0;
    answer_log_probability := answer_lp;
    quantization_error := (key_quantization_error + value_quantization_error) / 2;
    key_quantization_error := key_quantization_error;
    value_quantization_error := value_quantization_error;
    attention_error := attention_error;
    logit_error := logit_error;
    average_n_bits := (key_average_n_bits + value_average_n_bits) / 2;
    key_average_n_bits := key_average_n_bits;
    value_average_n_bits := value_average_n_bits;
    average_size := (key_average_size + value_average_size) / 2;
    key_average_size := key_average_size;
    value_average_size := value_average_size |}.

(** ** Corpus aggregation *)

(** [tqdm(xs)] yields the elements of [xs]. *)
Definition tqdm {A} (xs : list A) : list A := xs.

(** [x += y] where [x] is a float and [y] may be [None]. *)
Definition py_iadd (x : option R) (y : option R) : result (option R) :=
  match x, y with
  | Some a, Some b => Ok (Some (a + b))
  | _, _ => Err TypeError
  end.

(** [x /= n] on a float attribute. *)
Definition py_idiv (x : option R) (n : nat) : result (option R) :=
  match x with
  | Some a => let! q := py_div_int a n in Ok (Some q)
  | None => Err TypeError
  end.

(** Lines 134-148: one round of accumulation. *)
Definition accumulate (res single_result : EvaluationResult) (n_tokens : nat)
  : result EvaluationResult :=
  let accuracy' := accuracy res + accuracy single_result in
  let! answer_lp' := py_iadd (answer_log_probability res)
                             (answer_log_probability single_result) in
  Ok {|
    accuracy := accuracy';
    accuracy_confidence := accuracy_confidence res;
    answer_log_probability := answer_lp';
    quantization_error := quantization_error res + quantization_error single_result;
    key_quantization_error :=
      key_quantization_error res + key_quantization_error single_result;
    value_quantization_error :=
      value_quantization_error res + value_quantization_error single_result;
    attention_error := attention_error res + attention_error single_result;
    logit_error := logit_error res + logit_error single_result;
    average_n_bits :=
      average_n_bits res + average_n_bits single_result * INR n_tokens;
    key_average_n_bits :=
      key_average_n_bits res + key_average_n_bits single_result * INR n_tokens;
    value_average_n_bits :=
      value_average_n_bits res + value_average_n_bits single_result * INR n_tokens;
    average_size := average_size res + average_size single_result * INR n_tokens;
    key_average_size :=
      key_average_size res + key_average_size single_result * INR n_tokens;
    value_average_size :=
      value_average_size res + value_average_size single_result * INR n_tokens |}.

Fixpoint evaluate_loop (self : Evaluator) (qs : list (nat * Question.t))
    (res : EvaluationResult) (total_tokens : nat)
  : Eff (EvaluationResult * nat) :=
  match qs with
  | [] => eret (res, total_tokens)
  | (idx, question) :: rest =>
      run! single_result := _evaluate_single self idx question in
      let n_tokens := Question.question_length question in
      let total_tokens := (total_tokens + n_tokens)%nat in
      run! res := lift (accumulate res single_result n_tokens) in
      evaluate_loop self rest res total_tokens
  end.

(** Lines 149-164. *)
Definition finalize (res : EvaluationResult) (n_questions total_tokens : nat)
  : result EvaluationResult :=
  let! accuracy' := py_div_int (accuracy res) n_questions in
  (* Calculate 95% confidence interval *)
  let! variance := py_div_int (accuracy' * (1 - accuracy')) n_questions in
  let! root := math_sqrt variance in
  let accuracy_confidence' := 1.96 * root in
  let! answer_lp' := py_idiv (answer_log_probability res) n_questions in
  let! quantization_error' := py_div_int (quantization_error res) n_questions in
  let! key_quantization_error' :=
    py_div_int (key_quantization_error res) n_questions in
  let! value_quantization_error' :=
    py_div_int (value_quantization_error res) n_questions in
  let! attention_error' := py_div_int (attention_error res) n_questions in
  let! logit_error' := py_div_int (logit_error res) n_questions in
  let! average_size' := py_div_int (average_size res) total_tokens in
  let! key_average_size' := py_div_int (key_average_size res) total_tokens in
  let! value_average_size' := py_div_int (value_average_size res) total_tokens in
  let! average_n_bits' := py_div_int (average_n_bits res) total_tokens in
  let! key_average_n_bits' := py_div_int (key_average_n_bits res) total_tokens in
  let! value_average_n_bits' :=
    py_div_int (value_average_n_bits res) total_tokens in
  Ok {|
    accuracy := accuracy';
    accuracy_confidence := accuracy_confidence';
    answer_log_probability := answer_lp';
    quantization_error := quantization_error';
    key_quantization_error := key_quantization_error';
    value_quantization_error := value_quantization_error';
    attention_error := attention_error';
    logit_error := logit_error';
    average_n_bits := average_n_bits';
    key_average_n_bits := key_average_n_bits';
    value_average_n_bits := value_average_n_bits';
    average_size := average_size';
    key_average_size := key_average_size';
    value_average_size := value_average_size' |}.

Definition evaluate (self : Evaluator) (use_tqdm : bool) : Eff EvaluationResult :=
  run! (res, total_tokens) :=
    evaluate_loop self
      (enumerate (if use_tqdm then tqdm (questions self) else questions self))
      EvaluationResult_default 0 in
  lift (finalize res (List.length (questions self)) total_tokens).

(** ** Result cache *)

(** One record of the backing store: [{"params": ..., "results": ...}]. *)
Record cache_entry : Type := {
  entry_params : Params;
  entry_results : EvaluationResult
}.

(** A file holds a JSON list of records, a figure written by
    [plt.savefig], or something else [json.load] rejects. *)
Inductive file : Type :=
| Records (entries : list cache_entry)
| Figure
| Corrupt.

(** The part of the file system the evaluator touches: path to content. *)
Abbreviation FS := (gmap string file) (only parsing).

(** The files the events of a run leave behind: every [plt.savefig]
    creates or replaces the file at its path. *)
Definition saved_figures (evs : list event) (fs : FS) : FS :=
  fold_left (fun fs e => match e with
                         | EvSaveFig path => <[path := Figure]> fs
                         | _ => fs
                         end) evs fs.

(** The cache file is read before [evaluate] runs and written after it;
    the figures of the diagnostics are written in between, also when
    [evaluate] raises later on.  A figure is not text in the default
    UTF-8 encoding: reading it inside [json.load] raises. *)
Definition cached_evaluate (self : Evaluator) (cache_file : option string)
    (use_tqdm : bool) (fs : FS) : Eff EvaluationResult * FS :=
  let compute_and_store (cached_results : list cache_entry) :=
    match evaluate self use_tqdm with
    | (Ok res, evs) =>
        let cached_results :=
          cached_results ++ [{| entry_params := params self;
                                entry_results := res |}] in
        match cache_file with
        | Some path =>
            ((Ok res, evs),
             <[path := Records cached_results]> (saved_figures evs fs))
        | None => ((Ok res, evs), saved_figures evs fs)
        end
    | (Err e, evs) => ((Err e, evs), saved_figures evs fs)
    end in
  match cache_file with
  | Some path =>
      match fs !! path with
      | Some (Records cached_results) =>
          match find (fun entry =>
                        bool_decide (params_eq (entry_params entry) (params self)))
                     cached_results with
          | Some entry => ((Ok (entry_results entry), []), fs)
          | None => compute_and_store cached_results
          end
      | Some Figure => ((Err UnicodeDecodeError, []), fs)
      | Some Corrupt => ((Err JSONDecodeError, []), fs)
      | None => compute_and_store []
      end
  | None => compute_and_store []
  end.

(** ** A small concrete instance

    One layer, one head, a two-word vocabulary; the logits at a position
    depend on the token there, the quantizer keeps the cache as it is and
    reports a bit-width that grows with the prefix. *)

Definition positions (cache : Tensor4) : nat :=
  match cache with
  | (head :: _) :: _ => List.length head
  | _ => 0%nat
  end.

Definition toy_forward (ids : list (list Z)) (past : option KVCache)
  : result Model.output :=
  let past_len := match past with
                  | Some ((key, _) :: _) => positions key
                  | _ => 0%nat
                  end in
  let kv : Tensor4 := map (fun row => [map (fun t => [IZR t]) row]) ids in
  Ok {| Model.logits := map (map (fun t => [IZR t; 0])) ids;
        Model.attentions :=
          [map (fun row =>
                  [map (fun _ => repeat 0 (past_len + List.length row)) row])
               ids];
        Model.past_key_values := [(kv, kv)] |}.

Definition toy_model : Model.t :=
  {| Model.name_or_path := "toy"; Model.forward := toy_forward |}.

Definition toy_quantizer (level : string) (n_bits : Z) : Quantizer.t :=
  {| Quantizer.level := level;
     Quantizer.params := {[ "n_bits"%string := JInt n_bits ]};
     Quantizer.quantize cache _ :=
       Ok (cache, INR (match cache with
                       | layer :: _ => positions layer
                       | [] => 0%nat
                       end) / 5);
     Quantizer.calc_quantized_cache_size_per_token bits _ := Ok bits |}.

Definition toy_evaluator (level : string) (qs : list Question.t) : Evaluator :=
  {| device := "cpu"; version := "v1"; model := toy_model; questions := qs;
     key_quantizer := toy_quantizer level 4;
     value_quantizer := toy_quantizer level 4;
     enable_draw_cache_insights := false |}.

(** A prefix of [n] tokens followed by the given continuations. *)
Definition toy_question (n : nat) (continuations : list (list Z)) (answer : Z)
  : Question.t :=
  {| Question.input_ids := map (fun c => repeat 0%Z n ++ c) continuations;
     Question.question_length := n;
     Question.choice_length := map (@List.length Z) continuations;
     Question.answer_idx := answer |}.

Definition unwrap (m : Eff EvaluationResult) : EvaluationResult :=
  match m with
  | (Ok r, _) => r
  | (Err _, _) => EvaluationResult_default
  end.

(** ** Notions used in the statements *)

Definition value {A} (m : Eff A) : result A := fst m.
Definition events {A} (m : Eff A) : list event := snd m.

(** The loop without its failures: the state after the scores [ss] of the
    choices numbered from [k]. *)
Fixpoint scan (answer_idx : Z) (k : nat) (ss : list R) (st : scan_state)
  : scan_state :=
  match ss with
  | [] => st
  | s :: ss' => scan answer_idx (S k) ss' (scan_step answer_idx st k s)
  end.

(** [i] is the first position of the maximum [m] of [ss]. *)
Definition first_max (ss : list R) (i : nat) (m : R) : Prop :=
  ss !! i = Some m /\
  (forall j s, ss !! j = Some s -> s <= m) /\
  (forall j, ss !! j = Some m -> (i <= j)%nat).

(** What the loop state records about the scores seen so far. *)
Definition scanned (a : Z) (seen : list R) (st : scan_state) : Prop :=
  let '(mx, mi, alp) := st in
  alp = (if decide (0 <= a < Z.of_nat (List.length seen))%Z
         then seen !! Z.to_nat a else None) /\
  match mx, mi with
  | None, None => seen = []
  | Some m, Some i => first_max seen i m
  | _, _ => False
  end.

(** The score as the specification words it: the log-probability of the
    continuation of choice [c], of length [L], divided by [L].  The first
    continuation token is read off the unquantized pass at the last prefix
    position, every later one off the quantized pass at the position of
    its predecessor. *)
Definition spec_choice_score (unquantized quantized : Tensor3)
    (ids : list (list Z)) (qlen c L : nat) : R :=
  let token p := Z.to_nat (nth p (nth c ids []) 0%Z) in
  let first :=
    nth (token qlen)
        (log_softmax_row (nth (qlen - 1) (nth c unquantized []) [])) 0 in
  let rest :=
    map (fun j => nth (token (qlen + 1 + j)%nat)
                      (log_softmax_row (nth j (nth c quantized []) [])) 0)
        (seq 0 (L - 1)) in
  (first + rsum rest) / INR L.

(** [scores] are the per-choice scores the code computes for [q], from the
    unquantized pass [res] over the whole input and the quantized pass
    [qres]: the pass over the continuation tokens whose past is the cache
    of [res], cut to the prefix and put through the two quantizers. *)
Definition computed_scores (self : Evaluator) (q : Question.t)
    (res qres : Model.output) (scores : list R) : Prop :=
  let question_len := Question.question_length q in
  let question_attentions :=
    map (fun attn => slice4 (firstn question_len) (firstn question_len) attn)
        (Model.attentions res) in
  exists key_cache value_cache quantized_key_cache key_average_n_bits
         quantized_value_cache value_average_n_bits fl,
    Model.forward (model self) (Question.input_ids q) None = Ok res /\
    stack (map (fun '(key, _) => slice4 (firstn question_len) all_ key)
               (Model.past_key_values res)) = Ok key_cache /\
    stack (map (fun '(_, value) => slice4 (firstn question_len) all_ value)
               (Model.past_key_values res)) = Ok value_cache /\
    Quantizer.quantize (key_quantizer self) key_cache question_attentions
    = Ok (quantized_key_cache, key_average_n_bits) /\
    Quantizer.quantize (value_quantizer self) value_cache question_attentions
    = Ok (quantized_value_cache, value_average_n_bits) /\
    Model.forward (model self)
      (map (skipn (Question.question_length q)) (Question.input_ids q))
      (Some (combine quantized_key_cache quantized_value_cache)) = Ok qres /\
    mapM (fun row => py_index row (Z.of_nat (Question.question_length q) - 1))
         (Model.logits res) = Ok fl /\
    Forall2 (fun cl s =>
               choice_score (map log_softmax_row fl)
                 (map (map log_softmax_row) (Model.logits qres))
                 (Question.input_ids q) (Question.question_length q)
                 cl.1 cl.2 = Ok s)
            (enumerate (Question.choice_length q)) scores.

(** The accumulator after the given per-question results, in order. *)
Fixpoint totals (res : EvaluationResult)
    (rqs : list (EvaluationResult * Question.t)) : result EvaluationResult :=
  match rqs with
  | [] => Ok res
  | (single_result, question) :: rest =>
      let! res := accumulate res single_result
                             (Question.question_length question) in
      totals res rest
  end.

Definition total_question_length (qs : list Question.t) : nat :=
  list_sum (map Question.question_length qs).

Definition adds_up (f : EvaluationResult -> R) : Prop :=
  forall res r n res',
    accumulate res r n = Ok res' -> f res' = f res + f r.

Definition adds_up_weighted (f : EvaluationResult -> R) : Prop :=
  forall res r n res',
    accumulate res r n = Ok res' -> f res' = f res + f r * INR n.

Definition token_weighted_sum (f : EvaluationResult -> R)
    (rs : list EvaluationResult) (qs : list Question.t) : R :=
  rsum (map (fun '(r, q) => f r * INR (Question.question_length q))
            (combine rs qs)).

Definition count_correct (correct : list bool) : nat :=
  List.length (List.filter (fun b => b) correct).

(** The final statistics in terms of the per-question results [rs] (whose
    [answer_log_probability] values are [alps]) of the questions [qs]. *)
Definition corpus_statistics (rs : list EvaluationResult) (alps : list R)
    (qs : list Question.t) (r : EvaluationResult) : Prop :=
  let n := INR (List.length qs) in
  let t := INR (total_question_length qs) in
  accuracy r = rsum (map accuracy rs) / n /\
  accuracy_confidence r = 1.96 * sqrt (accuracy r * (1 - accuracy r) / n) /\
  answer_log_probability r = Some (rsum alps / n) /\
  quantization_error r = rsum (map quantization_error rs) / n /\
  key_quantization_error r = rsum (map key_quantization_error rs) / n /\
  value_quantization_error r = rsum (map value_quantization_error rs) / n /\
  attention_error r = rsum (map attention_error rs) / n /\
  logit_error r = rsum (map logit_error rs) / n /\
  average_n_bits r = token_weighted_sum average_n_bits rs qs / t /\
  key_average_n_bits r = token_weighted_sum key_average_n_bits rs qs / t /\
  value_average_n_bits r = token_weighted_sum value_average_n_bits rs qs / t /\
  average_size r = token_weighted_sum average_size rs qs / t /\
  key_average_size r = token_weighted_sum key_average_size rs qs / t /\
  value_average_size r = token_weighted_sum value_average_size rs qs / t.

Definition matches (self : Evaluator) (entry : cache_entry) : bool :=
  bool_decide (params_eq (entry_params entry) (params self)).

(** ** Concrete questions, evaluators and stores *)

Definition unit_attention (x : R) : Tensor4 := [[[[x]]]].

Definition two_token_question : Question.t := toy_question 2 [[1; 0]%Z] 0.
Definition two_token_evaluator : Evaluator :=
  toy_evaluator "token" [two_token_question].
Definition two_token_result : EvaluationResult :=
  unwrap (_evaluate_single two_token_evaluator 0 two_token_question).

(** Three choices with one and the same continuation, hence one score. *)
Definition tied_question (answer : Z) : Question.t :=
  toy_question 2 [[1]; [1]; [1]]%Z answer.
Definition tied_evaluator : Evaluator :=
  toy_evaluator "token" [tied_question 2].
Definition tied_result : EvaluationResult :=
  unwrap (_evaluate_single tied_evaluator 0 (tied_question 2)).

(** One choice, and an answer index that points past it. *)
Definition misindexed_question : Question.t := toy_question 2 [[1]%Z] 1.
Definition misindexed_evaluator : Evaluator :=
  toy_evaluator "token" [misindexed_question].

Definition alp_of (r : EvaluationResult) : R :=
  match answer_log_probability r with Some a => a | None => 0 end.

(** Prefix lengths 10 and 30; the quantizer's sizes come out as 2 and 6
    bytes per token. *)
Definition short_question : Question.t := toy_question 10 [[1]%Z] 0.
Definition long_question : Question.t := toy_question 30 [[1]%Z] 0.
Definition two_length_evaluator : Evaluator :=
  toy_evaluator "token" [short_question; long_question].
Definition two_length_results : list EvaluationResult :=
  [unwrap (_evaluate_single two_length_evaluator 0 short_question);
   unwrap (_evaluate_single two_length_evaluator 1 long_question)].

(** One question answered correctly and one not (the tie goes to choice
    0, the answer is choice 2). *)
Definition half_right_evaluator : Evaluator :=
  toy_evaluator "token" [tied_question 0; tied_question 2].
Definition half_right_results : list EvaluationResult :=
  [unwrap (_evaluate_single half_right_evaluator 0 (tied_question 0));
   unwrap (_evaluate_single half_right_evaluator 1 (tied_question 2))].

(** A store with a record of another version followed by two records of
    the current parameters. *)
Definition stale_entry : cache_entry :=
  {| entry_params := {| p_version := "v0"; p_model_name := "toy";
                        p_question_count := 1;
                        p_key_quantizer := {[ "n_bits"%string := JInt 4 ]};
                        p_value_quantizer := {[ "n_bits"%string := JInt 4 ]} |};
     entry_results := EvaluationResult_default |}.
Definition first_entry : cache_entry :=
  {| entry_params := params two_token_evaluator;
     entry_results := two_token_result |}.
Definition second_entry : cache_entry :=
  {| entry_params := params two_token_evaluator;
     entry_results := EvaluationResult_default |}.
Definition cache_path : string := "cache.json".
Definition cache_store : gmap string file :=
  <[cache_path := Records [stale_entry; first_entry; second_entry]]> ∅.


(** ** Further notions: laws of the tensor operations *)

(** What the elementwise operations do to the flattened values. *)
Class TensorLaws (T : Type) `{Tensor T} : Prop := {
  flat_tmap : forall (f : R -> R) (t : T), flat (tmap f t) = map f (flat t);
  tsub_self : forall a : T,
    exists d, tsub a a = Ok d /\ flat d = map (fun _ => 0) (flat a);
  tsub_swap : forall (a b d : T),
    tsub a b = Ok d -> exists d', tsub b a = Ok d' /\ flat d' = map Ropp (flat d)
}.

(** ** Further notions: the steps of one evaluation *)

(** The diagnostics step of [_evaluate_single] (lines 80-86). *)
Definition diagnostics (self : Evaluator) (idx : nat)
    (key_cache quantized_key_cache value_cache quantized_value_cache : Tensor5)
  : Eff unit :=
  if (enable_draw_cache_insights self && (idx =? 0)%nat)%bool
  then draw_cache_insights self
         [("Key cache"%string, key_cache);
          ("Quantized key cache"%string, quantized_key_cache);
          ("Value cache"%string, value_cache);
          ("Quantized value cache"%string, quantized_value_cache)]
  else eret tt.

(** The intermediate values of a run of [_evaluate_single] in which every
    step but the diagnostics returns. *)
Record single_run : Type := {
  run_res : Model.output;
  run_key_cache : Tensor5;
  run_value_cache : Tensor5;
  run_quantized_key_cache : Tensor5;
  run_key_average_n_bits : R;
  run_quantized_value_cache : Tensor5;
  run_value_average_n_bits : R;
  run_quantized_res : Model.output;
  run_last_prefix_logits : list (list R);
  run_scan : scan_state;
  run_key_quantization_error : R;
  run_value_quantization_error : R;
  run_attention_error : R;
  run_logit_error : R;
  run_key_average_size : R;
  run_value_average_size : R
}.

Definition single_steps (self : Evaluator) (q : Question.t) (t : single_run)
  : Prop :=
  let question_len := Question.question_length q in
  let input_ids := Question.input_ids q in
  let question_attentions :=
    map (fun attn => slice4 (firstn question_len) (firstn question_len) attn)
        (Model.attentions (run_res t)) in
  Model.forward (model self) input_ids None = Ok (run_res t) /\
  stack (map (fun '(key, _) => slice4 (firstn question_len) all_ key)
             (Model.past_key_values (run_res t))) = Ok (run_key_cache t) /\
  stack (map (fun '(_, value) => slice4 (firstn question_len) all_ value)
             (Model.past_key_values (run_res t))) = Ok (run_value_cache t) /\
  Quantizer.quantize (key_quantizer self) (run_key_cache t) question_attentions
  = Ok (run_quantized_key_cache t, run_key_average_n_bits t) /\
  Quantizer.quantize (value_quantizer self) (run_value_cache t)
                     question_attentions
  = Ok (run_quantized_value_cache t, run_value_average_n_bits t) /\
  Model.forward (model self) (map (skipn question_len) input_ids)
    (Some (combine (run_quantized_key_cache t) (run_quantized_value_cache t)))
  = Ok (run_quantized_res t) /\
  mapM (fun row => py_index row (Z.of_nat question_len - 1))
       (Model.logits (run_res t)) = Ok (run_last_prefix_logits t) /\
  scoring_loop
    (choice_score (map log_softmax_row (run_last_prefix_logits t))
       (map (map log_softmax_row) (Model.logits (run_quantized_res t)))
       input_ids question_len)
    (Question.answer_idx q) (enumerate (Question.choice_length q))
    (None, None, None) = Ok (run_scan t) /\
  _calc_tensor_error self (run_key_cache t) (run_quantized_key_cache t)
  = Ok (run_key_quantization_error t) /\
  _calc_tensor_error self (run_value_cache t) (run_quantized_value_cache t)
  = Ok (run_value_quantization_error t) /\
  _calc_attention_error self
    (map (fun attn => slice4 (skipn question_len) (firstn question_len) attn)
         (Model.attentions (run_res t)))
    (map (fun attn => slice4 all_ (firstn question_len) attn)
         (Model.attentions (run_quantized_res t)))
  = Ok (run_attention_error t) /\
  _calc_tensor_error self (map (skipn question_len) (Model.logits (run_res t)))
                     (Model.logits (run_quantized_res t))
  = Ok (run_logit_error t) /\
  Quantizer.calc_quantized_cache_size_per_token
    (key_quantizer self) (run_key_average_n_bits t) (model self)
  = Ok (run_key_average_size t) /\
  Quantizer.calc_quantized_cache_size_per_token
    (value_quantizer self) (run_value_average_n_bits t) (model self)
  = Ok (run_value_average_size t).

(** The difference of [a] and [b], where it is defined, has at least one
    element, so that the mean of its squares is a number: on an empty
    tensor torch's [mean] is NaN. *)
Definition nonempty_difference {T} `{Tensor T} (a b : T) : Prop :=
  match tsub a b with
  | Ok d => flat d <> []
  | Err _ => True
  end.

(** Each of the four error metrics of the run [t] is taken over at least
    one element. *)
Definition measured_on_elements (q : Question.t) (t : single_run) : Prop :=
  let question_len := Question.question_length q in
  nonempty_difference (run_key_cache t) (run_quantized_key_cache t) /\
  nonempty_difference (run_value_cache t) (run_quantized_value_cache t) /\
  Forall (fun p : Tensor4 * Tensor4 => nonempty_difference p.1 p.2)
    (combine
       (map (fun attn => slice4 (skipn question_len) (firstn question_len) attn)
            (Model.attentions (run_res t)))
       (map (fun attn => slice4 all_ (firstn question_len) attn)
            (Model.attentions (run_quantized_res t)))) /\
  nonempty_difference (map (skipn question_len) (Model.logits (run_res t)))
                      (Model.logits (run_quantized_res t)).

(** The record [_evaluate_single] returns at the end of such a run. *)
Definition single_record (q : Question.t) (t : single_run) : EvaluationResult :=
  {| accuracy := hit (run_scan t).1.2 (Question.answer_idx q);
     accuracy_confidence := 0;
     answer_log_probability := (run_scan t).2;
     quantization_error :=
       (run_key_quantization_error t + run_value_quantization_error t) / 2;
     key_quantization_error := run_key_quantization_error t;
     value_quantization_error := run_value_quantization_error t;
     attention_error := run_attention_error t;
     logit_error := run_logit_error t;
     average_n_bits :=
       (run_key_average_n_bits t + run_value_average_n_bits t) / 2;
     key_average_n_bits := run_key_average_n_bits t;
     value_average_n_bits := run_value_average_n_bits t;
     average_size := (run_key_average_size t + run_value_average_size t) / 2;
     key_average_size := run_key_average_size t;
     value_average_size := run_value_average_size t |}.

(** The number of model calls among the events. *)
Definition forward_calls (evs : list event) : nat :=
  List.length (List.filter (fun e => match e with EvForward => true | _ => false end) evs).

(** The same evaluator with the diagnostics switched off. *)
Definition without_diagnostics (self : Evaluator) : Evaluator :=
  {| device := device self; version := version self; model := model self;
     questions := questions self; key_quantizer := key_quantizer self;
     value_quantizer := value_quantizer self;
     enable_draw_cache_insights := false |}.

(** The events of a rendering of the caches [caches] that ran to its end. *)
Definition rendering (caches : list (string * Tensor5)) : list event :=
  map (fun c => EvPlot c.1) caches
  ++ [EvSaveFig "figs/cache_std.png"; EvPrint "(min/max/std/mean)"]
  ++ flat_map (fun c => [EvPrint c.1; EvPlot c.1]) caches
  ++ [EvSaveFig "figs/cache_distribution.png"].

(** The toy evaluator with the diagnostics enabled. *)
Definition drawing_evaluator : Evaluator :=
  {| device := "cpu"; version := "v1"; model := toy_model;
     questions := [two_token_question];
     key_quantizer := toy_quantizer "token" 4;
     value_quantizer := toy_quantizer "token" 4;
     enable_draw_cache_insights := true |}.

(** A cache of one layer, one item, one head, two positions. *)
Definition small_cache : Tensor5 := [[[[[1]; [2]]]]].

(** Every head of the cache holds at most [n] positions. *)
Definition at_most_positions (n : nat) (cache : Tensor5) : Prop :=
  Forall (Forall (Forall (fun head : list (list R) =>
                            (List.length head <= n)%nat))) cache.

(** A question with a prefix of one token. *)
Definition one_token_prefix_question : Question.t := toy_question 1 [[1]%Z] 0.

(** Two questions without a prefix: their total prefix length is 0. *)
Definition prefixless_question : Question.t := toy_question 0 [[1]%Z] 0.
Definition prefixless_evaluator : Evaluator :=
  toy_evaluator "token" [prefixless_question].
Definition prefixless_results : list EvaluationResult :=
  [unwrap (_evaluate_single prefixless_evaluator 0 prefixless_question)].

(** A question whose only choice has no continuation, after a good one. *)
Definition empty_choice_question : Question.t :=
  {| Question.input_ids := [[0; 0; 1]%Z];
     Question.question_length := 2;
     Question.choice_length := [0%nat];
     Question.answer_idx := 0 |}.
Definition failing_evaluator : Evaluator :=
  toy_evaluator "token"
    [two_token_question; empty_choice_question; two_token_question].

(** An evaluator over another question, on another device, with the same
    version, model name, question count and quantizer parameters. *)
Definition other_corpus_evaluator : Evaluator :=
  {| device := "cuda"; version := "v1"; model := toy_model;
     questions := [tied_question 0];
     key_quantizer := toy_quantizer "token" 4;
     value_quantizer := toy_quantizer "token" 4;
     enable_draw_cache_insights := true |}.

(** An evaluator whose key quantizer has another parameter. *)
Definition requantized_evaluator : Evaluator :=
  {| device := "cpu"; version := "v1"; model := toy_model;
     questions := [two_token_question];
     key_quantizer := toy_quantizer "token" 8;
     value_quantizer := toy_quantizer "token" 4;
     enable_draw_cache_insights := false |}.



(** Diagnostics enabled; the first question is rendered and evaluated, the
    second one fails. *)
Definition drawing_then_failing_evaluator : Evaluator :=
  {| device := "cpu"; version := "v1"; model := toy_model;
     questions := [two_token_question; empty_choice_question];
     key_quantizer := toy_quantizer "token" 4;
     value_quantizer := toy_quantizer "token" 4;
     enable_draw_cache_insights := true |}.

(** What that run is observed to do before it raises. *)
Definition drawing_then_failing_events : list event :=
  [EvForward]
  ++ rendering [("Key cache"%string, []); ("Quantized key cache"%string, []);
                ("Value cache"%string, []);
                ("Quantized value cache"%string, [])]
  ++ [EvForward; EvForward; EvForward].

(** A store written by [two_token_evaluator] alone. *)
Definition single_record_store : gmap string file :=
  <[cache_path := Records [first_entry]]> ∅.

(** * Properties *)

(** ** The monads *)

Lemma rbind_Ok {A B} (m : result A) (k : A -> result B) (b : B) :
  rbind m k = Ok b -> exists a, m = Ok a /\ k a = Ok b.
Proof. destruct m as [a|e]; simpl; [eauto | discriminate]. Qed.

Lemma value_ebind_Ok {A B} (m : Eff A) (k : A -> Eff B) (b : B) :
  value (ebind m k) = Ok b -> exists a, value m = Ok a /\ value (k a) = Ok b.
Proof.
  unfold value, ebind. destruct m as [[a|e] evs]; simpl.
  - destruct (k a) as [r evs'] eqn:E. simpl. intros ->. exists a. by rewrite E.
  - discriminate.
Qed.

Lemma value_ebind {A B} (m : Eff A) (k : A -> Eff B) (a : A) :
  value m = Ok a -> value (ebind m k) = value (k a).
Proof.
  unfold value, ebind. destruct m as [[a'|e] evs]; simpl; [|discriminate].
  intros [= ->]. by destruct (k a).
Qed.

Lemma value_ebind_Err {A B} (m : Eff A) (k : A -> Eff B) (e : exn) :
  value m = Err e -> value (ebind m k) = Err e.
Proof.
  unfold value, ebind. destruct m as [[a'|e'] evs]; simpl; [discriminate|].
  by intros [= ->].
Qed.

Lemma value_lift {A} (m : result A) : value (lift m) = m.
Proof. reflexivity. Qed.

Lemma value_ebind_lift {A B} (m : result A) (k : A -> Eff B) :
  value (ebind (lift m) k)
  = match m with Ok a => value (k a) | Err e => Err e end.
Proof. destruct m as [a|e]; [|reflexivity]. by apply value_ebind. Qed.

Lemma eff_eta {A} (m : Eff A) : m = (value m, events m).
Proof. by destruct m. Qed.

Lemma value_eret {A} (a : A) : value (eret a) = Ok a.
Proof. reflexivity. Qed.

Lemma mapM_Forall2 {A B} (f : A -> result B) (l : list A) (bs : list B) :
  mapM f l = Ok bs <-> Forall2 (fun a b => f a = Ok b) l bs.
Proof.
  revert bs. induction l as [|a l IH]; intros bs; simpl.
  - split.
    + intros [= <-]. constructor.
    + intros H. by inversion H.
  - split.
    + intros H. apply rbind_Ok in H as (b & Hb & H).
      apply rbind_Ok in H as (bs' & Hbs & [= <-]).
      constructor; [done | by apply IH].
    + intros H. inversion H as [|? b ? bs' Hb Hbs]; subst.
      rewrite Hb. simpl. apply IH in Hbs. by rewrite Hbs.
Qed.

Lemma py_div_int_Ok (x : R) (n : nat) :
  n <> 0%nat -> py_div_int x n = Ok (x / INR n).
Proof. unfold py_div_int. by destruct n. Qed.

Lemma py_div_int_zero (x : R) : py_div_int x 0 = Err ZeroDivisionError.
Proof. reflexivity. Qed.

(** Run the code on a concrete input, leaving real arithmetic symbolic. *)
Ltac run_code :=
  lazy -[Rplus Rminus Rmult Rdiv Rinv Ropp IZR ln exp pow sqrt
         Rgt_dec Rlt_dec].

(** ** Tensor error metrics *)

Lemma attention_pairs (self : Evaluator) (a1 a2 : AttentionType) (errs : list R) :
  Forall2 (fun p e => _calc_tensor_error self p.1 p.2 = Ok e) (combine a1 a2) errs ->
  mapM (fun '(attn1, attn2) => _calc_tensor_error self attn1 attn2)
       (combine a1 a2) = Ok errs.
Proof.
  intros H. apply mapM_Forall2.
  eapply Forall2_impl; [exact H|]. by intros [x y] e.
Qed.

(** C1 (as the code has it): [_calc_attention_error] performs no length
    check.  It pairs the tensors by position up to the shorter sequence;
    when the first sequence is non-empty and every paired tensor error is
    defined, it returns the sum of those [min (len a1) (len a2)] errors
    divided by the length of the first sequence. *)
Theorem attention_error_pairs_by_position
    (self : Evaluator) (a1 a2 : AttentionType) (errs : list R) :
  a1 <> [] ->
  Forall2 (fun p e => _calc_tensor_error self p.1 p.2 = Ok e)
          (combine a1 a2) errs ->
  List.length errs = Nat.min (List.length a1) (List.length a2) /\
  _calc_attention_error self a1 a2
  = Ok (rsum errs / INR (List.length a1)).
Proof.
  intros Hne H. split.
  - apply Forall2_length in H. rewrite <- H. apply length_combine.
  - unfold _calc_attention_error. rewrite (attention_pairs _ _ _ _ H). simpl.
    apply py_div_int_Ok. by destruct a1.
Qed.

Lemma attention_error_pairs_by_position_witness :
  [unit_attention 1] <> [] /\
  List.length [0] = Nat.min 1 2 /\
  _calc_attention_error (toy_evaluator "token" [])
    [unit_attention 1] [unit_attention 1; unit_attention 3]
  = Ok (rsum [0] / INR 1).
Proof.
  split; [discriminate|].
  apply (attention_error_pairs_by_position (toy_evaluator "token" [])
           [unit_attention 1] [unit_attention 1; unit_attention 3] [0]).
  - discriminate.
  - repeat constructor. run_code. f_equal. lra.
Defined.

(** C1 (as the spec states it) fails: sequences of lengths 1 and 2 are
    accepted, and so are lengths 2 and 1; the unmatched tensor is ignored,
    the divisor stays the length of the first sequence. *)
Lemma attention_error_accepts_length_mismatch :
  List.length [unit_attention 1]
    <> List.length [unit_attention 1; unit_attention 3] /\
  _calc_attention_error (toy_evaluator "token" [])
    [unit_attention 1] [unit_attention 1; unit_attention 3] = Ok 0 /\
  _calc_attention_error (toy_evaluator "token" [])
    [unit_attention 1; unit_attention 3] [unit_attention 3] = Ok 2.
Proof.
  split; [simpl; lia|]. split; run_code; f_equal; lra.
Qed.

(** ** Diagnostics precondition *)

(** C9: with diagnostics enabled and a quantizer whose level is not
    ["token"], [__init__] raises [AssertionError] and no model call has
    been made; [draw_cache_insights] asserts the same and, on such an
    evaluator, raises before it draws, saves or prints anything. *)
Theorem diagnostics_require_token_level
    (device version : string) (model : Model.t) (questions : list Question.t)
    (kq vq : Quantizer.t) :
  Quantizer.level kq <> "token"%string \/ Quantizer.level vq <> "token"%string ->
  Evaluator_init device version model questions kq vq true
  = (Err AssertionError, []) /\
  forall self caches,
    key_quantizer self = kq -> value_quantizer self = vq ->
    draw_cache_insights self caches = (Err AssertionError, []).
Proof.
  intros H.
  assert (Hb : String.eqb (Quantizer.level kq) "token" = false \/
               String.eqb (Quantizer.level vq) "token" = false).
  { destruct H as [H|H]; [left|right]; by apply String.eqb_neq. }
  split.
  - unfold Evaluator_init.
    destruct (String.eqb (Quantizer.level kq) "token") eqn:Ek; [|reflexivity].
    destruct Hb as [Hb|Hb]; [discriminate|]. by rewrite Hb.
  - intros self caches Hk Hv. unfold draw_cache_insights. rewrite Hk, Hv.
    destruct (String.eqb (Quantizer.level kq) "token") eqn:Ek; [|reflexivity].
    destruct Hb as [Hb|Hb]; [discriminate|]. by rewrite Hb.
Qed.

Lemma diagnostics_require_token_level_witness :
  (Quantizer.level (toy_quantizer "token" 4) <> "token"%string \/
   Quantizer.level (toy_quantizer "channel" 4) <> "token"%string) /\
  Evaluator_init "cpu" "v1" toy_model []
    (toy_quantizer "token" 4) (toy_quantizer "channel" 4) true
  = (Err AssertionError, []).
Proof.
  assert (H : Quantizer.level (toy_quantizer "token" 4) <> "token"%string \/
              Quantizer.level (toy_quantizer "channel" 4) <> "token"%string)
    by (right; discriminate).
  split; [exact H|].
  exact (proj1 (diagnostics_require_token_level "cpu" "v1" toy_model []
                  (toy_quantizer "token" 4) (toy_quantizer "channel" 4) H)).
Defined.

(** ** Corpus aggregation *)

(** C10: on an empty question list [evaluate] raises [ZeroDivisionError]
    (at [result.accuracy /= len(self.questions)]); no result is returned
    and the model is never called. *)
Theorem evaluate_empty_raises (self : Evaluator) (use_tqdm : bool) :
  questions self = [] ->
  evaluate self use_tqdm = (Err ZeroDivisionError, []).
Proof.
  intros H. unfold evaluate, tqdm. rewrite H. by destruct use_tqdm.
Qed.

Lemma evaluate_empty_raises_witness :
  questions (toy_evaluator "token" []) = [] /\
  evaluate (toy_evaluator "token" []) true = (Err ZeroDivisionError, []).
Proof.
  split; [reflexivity|].
  apply (evaluate_empty_raises (toy_evaluator "token" []) true). reflexivity.
Defined.

(** ** One question: what a returned result was computed from *)

Lemma value_model_forward (self : Evaluator) ids past :
  value (model_forward self ids past) = Model.forward (model self) ids past.
Proof. unfold model_forward, value, ebind, emit, lift. simpl. reflexivity. Qed.

Ltac step_value H x Hx :=
  apply value_ebind_Ok in H as (x & Hx & H).

Lemma _evaluate_single_inv (self : Evaluator) (idx : nat) (q : Question.t)
    (r : EvaluationResult) :
  value (_evaluate_single self idx q) = Ok r ->
  exists res kc vc qkc kbits qvc vbits qres fl mx mi alp,
    Model.forward (model self) (Question.input_ids q) None = Ok res /\
    stack (map (fun '(key, _) =>
                  slice4 (firstn (Question.question_length q)) all_ key)
               (Model.past_key_values res)) = Ok kc /\
    stack (map (fun '(_, value) =>
                  slice4 (firstn (Question.question_length q)) all_ value)
               (Model.past_key_values res)) = Ok vc /\
    Quantizer.quantize (key_quantizer self) kc
      (map (fun attn => slice4 (firstn (Question.question_length q))
                               (firstn (Question.question_length q)) attn)
           (Model.attentions res)) = Ok (qkc, kbits) /\
    Quantizer.quantize (value_quantizer self) vc
      (map (fun attn => slice4 (firstn (Question.question_length q))
                               (firstn (Question.question_length q)) attn)
           (Model.attentions res)) = Ok (qvc, vbits) /\
    Model.forward (model self)
      (map (skipn (Question.question_length q)) (Question.input_ids q))
      (Some (combine qkc qvc)) = Ok qres /\
    mapM (fun row => py_index row (Z.of_nat (Question.question_length q) - 1))
         (Model.logits res) = Ok fl /\
    scoring_loop
      (choice_score (map log_softmax_row fl)
                    (map (map log_softmax_row) (Model.logits qres))
                    (Question.input_ids q) (Question.question_length q))
      (Question.answer_idx q) (enumerate (Question.choice_length q))
      (None, None, None) = Ok (mx, mi, alp) /\
    accuracy r = hit mi (Question.answer_idx q) /\
    answer_log_probability r = alp /\
    accuracy_confidence r = 0.
Proof.
  unfold _evaluate_single, to. intros H.
  step_value H res Hres. rewrite value_model_forward in Hres.
  step_value H kc Hkc. rewrite value_lift in Hkc.
  step_value H vc Hvc. rewrite value_lift in Hvc.
  step_value H qk Hqk. rewrite value_lift in Hqk. destruct qk as [qkc kbits].
  step_value H qv Hqv. rewrite value_lift in Hqv. destruct qv as [qvc vbits].
  step_value H u Hu.
  step_value H qres Hqres. rewrite value_model_forward in Hqres.
  step_value H fl Hfl. rewrite value_lift in Hfl.
  step_value H st Hst. rewrite value_lift in Hst. destruct st as [[mx mi] alp].
  step_value H ke Hke. step_value H ve Hve. step_value H ae Hae.
  step_value H lge Hlge. step_value H ks Hks. step_value H vs Hvs.
  rewrite value_eret in H. injection H as <-.
  exists res, kc, vc, qkc, kbits, qvc, vbits, qres, fl, mx, mi, alp.
  simpl. repeat split; assumption.
Qed.

(** ** The scoring loop *)

Lemma nth_error_lookup {A} (l : list A) (i : nat) : nth_error l i = l !! i.
Proof. revert i. induction l; intros [|i]; simpl; auto. Qed.

Lemma scoring_loop_scan (score : nat -> nat -> result R) (a : Z)
    (lens : list nat) (k : nat) (st st' : scan_state) :
  scoring_loop score a (combine (seq k (List.length lens)) lens) st = Ok st' ->
  exists ss,
    Forall2 (fun cl s => score cl.1 cl.2 = Ok s)
            (combine (seq k (List.length lens)) lens) ss /\
    st' = scan a k ss st.
Proof.
  revert k st. induction lens as [|len lens IH]; intros k st; simpl.
  - intros [= <-]. exists []. split; [constructor | reflexivity].
  - intros H. apply rbind_Ok in H as (s & Hs & H).
    apply IH in H as (ss & Hss & ->).
    exists (s :: ss). split; [by constructor | reflexivity].
Qed.

Lemma scanned_step (a : Z) (seen : list R) (st : scan_state) (s : R) :
  scanned a seen st ->
  scanned a (seen ++ [s]) (scan_step a st (List.length seen) s).
Proof.
  destruct st as [[mx mi] alp]. intros [Halp Hmax].
  assert (Hans :
    (if (Z.of_nat (List.length seen) =? a)%Z then Some s else alp)
    = (if decide (0 <= a < Z.of_nat (List.length (seen ++ [s])))%Z
       then (seen ++ [s]) !! Z.to_nat a else None)).
  { rewrite length_app. simpl. subst alp.
    destruct (Z.eqb_spec (Z.of_nat (List.length seen)) a) as [<-|Hne].
    - rewrite decide_True by lia. rewrite Nat2Z.id.
      rewrite lookup_app_r by lia. by rewrite Nat.sub_diag.
    - destruct (decide (0 <= a < Z.of_nat (List.length seen))%Z).
      + rewrite decide_True by lia. by rewrite lookup_app_l by lia.
      + by rewrite decide_False by lia. }
  unfold scan_step.
  destruct mx as [m|], mi as [i|]; try contradiction.
  - destruct Hmax as (Hi & Hle & Hfirst).
    destruct (Rgt_dec s m) as [Hgt|Hngt]; (split; [exact Hans|]).
    + repeat split.
      * rewrite lookup_app_r by lia. by rewrite Nat.sub_diag.
      * intros j sj Hj. apply lookup_snoc_Some in Hj as [[_ Hj]|[_ <-]].
        -- apply Hle in Hj. lra.
        -- lra.
      * intros j Hj. apply lookup_snoc_Some in Hj as [[_ Hj]|[-> _]].
        -- apply Hle in Hj. lra.
        -- lia.
    + repeat split.
      * rewrite lookup_app_l; [exact Hi|]. by eapply lookup_lt_Some.
      * intros j sj Hj. apply lookup_snoc_Some in Hj as [[_ Hj]|[_ <-]].
        -- by eapply Hle.
        -- lra.
      * intros j Hj. apply lookup_snoc_Some in Hj as [[_ Hj]|[-> _]].
        -- by apply Hfirst.
        -- apply lookup_lt_Some in Hi. lia.
  - subst seen. split; [exact Hans|]. simpl. repeat split.
    + intros j sj Hj. apply list_lookup_singleton_Some in Hj as [_ <-]. lra.
    + intros j _. lia.
Qed.

Lemma scanned_scan (a : Z) (ss seen : list R) (st : scan_state) :
  scanned a seen st ->
  scanned a (seen ++ ss) (scan a (List.length seen) ss st).
Proof.
  revert seen st. induction ss as [|s ss IH]; intros seen st H; simpl.
  - by rewrite app_nil_r.
  - apply (scanned_step a seen st s) in H. apply IH in H.
    rewrite length_app, Nat.add_1_r in H.
    by rewrite <- app_assoc in H.
Qed.

Lemma scanned_start (a : Z) : scanned a [] (None, None, None).
Proof. split; [|reflexivity]. by rewrite decide_False by (simpl; lia). Qed.

(** A returned result of the loop over all choices. *)
Lemma scoring_loop_spec (score : nat -> nat -> result R) (a : Z)
    (lens : list nat) (st : scan_state) :
  scoring_loop score a (enumerate lens) (None, None, None) = Ok st ->
  exists ss,
    Forall2 (fun cl s => score cl.1 cl.2 = Ok s) (enumerate lens) ss /\
    scanned a ss st.
Proof.
  unfold enumerate. intros H.
  apply scoring_loop_scan in H as (ss & Hss & ->).
  exists ss. split; [exact Hss|].
  apply (scanned_scan a ss [] _ (scanned_start a)).
Qed.

(** ** Indexing *)

Lemma py_index_nat {A} (l : list A) (i : nat) (a : A) :
  py_index l (Z.of_nat i) = Ok a -> l !! i = Some a.
Proof.
  unfold py_index. destruct (Z.ltb_spec (Z.of_nat i) 0); [lia|].
  destruct (_ && _)%bool; [|discriminate].
  rewrite Nat2Z.id, nth_error_lookup. by destruct (l !! i); intros [= ->].
Qed.

Lemma py_index_nonneg {A} (l : list A) (i : Z) (a : A) :
  (0 <= i)%Z -> py_index l i = Ok a -> l !! Z.to_nat i = Some a.
Proof.
  intros Hi H. apply py_index_nat. by rewrite Z2Nat.id.
Qed.

Lemma arange_Ok (n : nat) (js : list Z) :
  arange (Z.of_nat n - 1) = Ok js ->
  (1 <= n)%nat /\ js = map Z.of_nat (seq 0 (n - 1)).
Proof.
  unfold arange. destruct (Z.ltb_spec (Z.of_nat n - 1) 0); [discriminate|].
  intros [= <-]. split; [lia|].
  by replace (Z.to_nat (Z.of_nat n - 1)) with (n - 1)%nat by lia.
Qed.

Lemma py_slice_continuation {A} (d : A) (row : list A) (a n : nat) :
  (a + n <= List.length row)%nat ->
  py_slice row a (a + n) = map (fun j => nth (a + j) row d) (seq 0 n).
Proof.
  intros Hlen. unfold py_slice. apply list_eq. intros i.
  rewrite lookup_drop, lookup_take, list_lookup_fmap.
  destruct (decide (i < n)%nat) as [Hi|Hi].
  - rewrite decide_True by lia. rewrite lookup_seq_lt by done. simpl.
    destruct (row !! (a + i)%nat) eqn:E.
    + by erewrite nth_lookup_Some.
    + apply lookup_ge_None in E. lia.
  - rewrite decide_False by lia. by rewrite lookup_seq_ge by lia.
Qed.

Lemma Forall2_eq_map {A B} (g : A -> B) (l : list A) (bs : list B) :
  Forall2 (fun a b => b = g a) l bs -> bs = map g l.
Proof. induction 1; simpl; congruence. Qed.

Lemma combine_map {A B C} (f : A -> B) (g : A -> C) (l : list A) :
  combine (map f l) (map g l) = map (fun x => (f x, g x)) l.
Proof. induction l; simpl; congruence. Qed.

(** ** The score of a choice *)

Lemma choice_score_spec (unquantized quantized : Tensor3) (fl : Tensor2)
    (ids : list (list Z)) (qlen c L : nat) (row : list Z) (s : R) :
  mapM (fun rows => py_index rows (Z.of_nat qlen - 1)) unquantized = Ok fl ->
  (1 <= qlen)%nat ->
  ids !! c = Some row ->
  (qlen + L <= List.length row)%nat ->
  Forall (fun t => (0 <= t)%Z) row ->
  choice_score (map log_softmax_row fl) (map (map log_softmax_row) quantized)
               ids qlen c L = Ok s ->
  s = spec_choice_score unquantized quantized ids qlen c L.
Proof.
  intros Hfl Hq Hrow Hlen Hpos H. unfold choice_score in H.
  assert (Htok : forall p, (0 <= nth p row 0)%Z).
  { intros p. destruct (decide (p < List.length row)%nat).
    - by apply Forall_nth.
    - rewrite nth_overflow by lia. lia. }
  apply rbind_Ok in H as (t0 & Ht0 & H).
  apply rbind_Ok in Ht0 as (row' & Hrow' & Ht0).
  apply py_index_nat in Hrow'. assert (row' = row) as -> by congruence.
  apply py_index_nat in Ht0.
  assert (Et0 : t0 = nth qlen row 0%Z) by (symmetry; by apply nth_lookup_Some).
  apply rbind_Ok in H as (first & Hfirst & H).
  apply rbind_Ok in Hfirst as (frow & Hfrow & Hfirst).
  apply py_index_nat in Hfrow. rewrite list_lookup_fmap in Hfrow.
  destruct (fl !! c) as [x|] eqn:Hx; simpl in Hfrow; [|done].
  injection Hfrow as <-.
  apply mapM_Forall2 in Hfl.
  destruct (Forall2_lookup_r _ _ _ _ _ Hfl Hx) as (rows & Hrows & Hx').
  replace (Z.of_nat qlen - 1)%Z with (Z.of_nat (qlen - 1)) in Hx' by lia.
  apply py_index_nat in Hx'.
  apply py_index_nonneg in Hfirst; [|subst t0; apply Htok].
  apply rbind_Ok in H as (js & Hjs & H).
  apply arange_Ok in Hjs as [HL ->].
  apply rbind_Ok in H as (row2 & Hrow2 & H).
  apply py_index_nat in Hrow2. assert (row2 = row) as -> by congruence.
  replace (qlen + L)%nat with ((qlen + 1) + (L - 1))%nat in H by lia.
  rewrite (py_slice_continuation 0%Z) in H by lia.
  apply rbind_Ok in H as (pairs & Hpairs & H).
  unfold broadcast_index in Hpairs.
  rewrite !length_map, Nat.eqb_refl in Hpairs. injection Hpairs as <-.
  rewrite combine_map in H.
  apply rbind_Ok in H as (lp & Hlp & H).
  apply py_index_nat in Hlp. rewrite list_lookup_fmap in Hlp.
  destruct (quantized !! c) as [qrows|] eqn:Hqrows; simpl in Hlp; [|done].
  injection Hlp as <-.
  apply rbind_Ok in H as (picked & Hpicked & H).
  apply mapM_Forall2, Forall2_fmap_l in Hpicked.
  assert (Epicked : picked =
    map (fun j => nth (Z.to_nat (nth (qlen + 1 + j) row 0%Z))
                      (log_softmax_row (nth j qrows [])) 0) (seq 0 (L - 1))).
  { apply Forall2_eq_map. eapply Forall2_impl; [exact Hpicked|].
    simpl. intros j v Hv.
    apply rbind_Ok in Hv as (r & Hr & Hv).
    apply py_index_nat in Hr. rewrite list_lookup_fmap in Hr.
    destruct (qrows !! j) as [lr|] eqn:Hlr; simpl in Hr; [|done].
    injection Hr as <-.
    apply py_index_nonneg in Hv; [|apply Htok].
    rewrite (nth_lookup_Some _ _ _ _ Hlr).
    symmetry. by apply nth_lookup_Some. }
  unfold py_div_int in H. destruct (L =? 0)%nat; [discriminate|].
  injection H as <-. unfold spec_choice_score.
  rewrite (nth_lookup_Some _ _ _ _ Hrow), (nth_lookup_Some _ _ _ _ Hrows),
    (nth_lookup_Some _ _ _ _ Hqrows), (nth_lookup_Some _ _ _ _ Hx').
  rewrite <- Et0, (nth_lookup_Some _ _ _ _ Hfirst), <- Epicked.
  reflexivity.
Qed.

Lemma _evaluate_single_scores (self : Evaluator) (idx : nat) (q : Question.t)
    (r : EvaluationResult) :
  value (_evaluate_single self idx q) = Ok r ->
  exists res qres scores mx mi,
    computed_scores self q res qres scores /\
    scanned (Question.answer_idx q) scores (mx, mi, answer_log_probability r) /\
    accuracy r = hit mi (Question.answer_idx q).
Proof.
  intros H.
  apply _evaluate_single_inv in H
    as (res & kc & vc & qkc & kbits & qvc & vbits & qres & fl & mx & mi & alp
        & H1 & Hkc & Hvc & Hqk & Hqv & H2 & H3 & H4 & H5 & H6 & _).
  apply scoring_loop_spec in H4 as (scores & Hscores & Hscan).
  exists res, qres, scores, mx, mi. subst alp.
  split; [|by split]. by exists kc, vc, qkc, kbits, qvc, vbits, fl.
Qed.

Lemma enumerate_length {A} (l : list A) :
  List.length (enumerate l) = List.length l.
Proof. unfold enumerate. rewrite length_combine, length_seq. lia. Qed.

Lemma lookup_combine_seq {A} (l : list A) (k c : nat) :
  combine (seq k (List.length l)) l !! c = (fun x => ((k + c)%nat, x)) <$> l !! c.
Proof.
  revert k c. induction l as [|x l IH]; intros k [|c]; simpl; try done.
  - by rewrite Nat.add_0_r.
  - rewrite IH. by replace (S k + c)%nat with (k + S c)%nat by lia.
Qed.

Lemma lookup_enumerate {A} (l : list A) (c : nat) (x : A) :
  l !! c = Some x -> enumerate l !! c = Some (c, x).
Proof. intros H. unfold enumerate. by rewrite lookup_combine_seq, H. Qed.

Lemma map_snd_enumerate {A} (l : list A) : map snd (enumerate l) = l.
Proof.
  unfold enumerate. generalize 0%nat. induction l; intros k; simpl; congruence.
Qed.

(** C2: when the single-question evaluation returns, the score of every
    choice [c] with continuation length [L] is the log-probability of its
    continuation (first token from the unquantized pass at the last prefix
    position, the others from the quantized pass) divided by [L], and the
    score of the choice at [answer_idx] is the result's
    [answer_log_probability].  The unquantized pass is the model run on
    the whole input; the quantized pass is the model run on the
    continuation tokens with, as its past, the key and value caches of
    the unquantized pass cut to the prefix and put through the key and
    the value quantizer.  The question is as the data model has it: a
    non-empty prefix, every row of [input_ids] holding the prefix and the
    whole continuation, token ids non-negative. *)
Theorem choice_scores_are_normalised_log_probabilities
    (self : Evaluator) (idx : nat) (q : Question.t) (r : EvaluationResult) :
  value (_evaluate_single self idx q) = Ok r ->
  (1 <= Question.question_length q)%nat ->
  Forall2 (fun row L =>
             (Question.question_length q + L <= List.length row)%nat /\
             Forall (fun t => (0 <= t)%Z) row)
          (Question.input_ids q) (Question.choice_length q) ->
  exists res qres scores,
    computed_scores self q res qres scores /\
    forall c L,
      Question.choice_length q !! c = Some L ->
      scores !! c
      = Some (spec_choice_score (Model.logits res) (Model.logits qres)
                (Question.input_ids q) (Question.question_length q) c L) /\
      (Question.answer_idx q = Z.of_nat c ->
       answer_log_probability r = scores !! c).
Proof.
  intros H Hq Hwf.
  apply _evaluate_single_scores in H
    as (res & qres & scores & mx & mi & Hcs & [Halp _] & _).
  exists res, qres, scores. split; [exact Hcs|].
  destruct Hcs as (kc & vc & qkc & kbits & qvc & vbits & fl
                   & H1 & _ & _ & _ & _ & H2 & H3 & H4).
  intros c L HL.
  pose proof (lookup_enumerate _ _ _ HL) as He.
  destruct (Forall2_lookup_l _ _ _ _ _ H4 He) as (s & Hs & Hcode).
  destruct (Forall2_lookup_r _ _ _ _ _ Hwf HL) as (row & Hrow & Hlen & Hpos).
  simpl in Hcode. split.
  - rewrite Hs. f_equal.
    by apply (choice_score_spec _ _ fl _ _ _ _ row).
  - intros Ha. rewrite Halp, Ha, Nat2Z.id.
    apply lookup_lt_Some in Hs. by rewrite decide_True by lia.
Qed.

(** C6: when the single-question evaluation returns for a question with at
    least one choice, the predicted choice [i] carries the maximum score
    and no choice before it carries that score: among tied maxima the
    lowest index wins.  [accuracy] is 1 exactly when that index is
    [answer_idx]. *)
Theorem predicted_choice_is_first_maximum
    (self : Evaluator) (idx : nat) (q : Question.t) (r : EvaluationResult) :
  value (_evaluate_single self idx q) = Ok r ->
  Question.choice_length q <> [] ->
  exists res qres scores i m,
    computed_scores self q res qres scores /\
    scores !! i = Some m /\
    (forall j s, scores !! j = Some s -> s <= m) /\
    (forall j, scores !! j = Some m -> (i <= j)%nat) /\
    accuracy r = (if (Z.of_nat i =? Question.answer_idx q)%Z then 1 else 0).
Proof.
  intros H Hne.
  apply _evaluate_single_scores in H
    as (res & qres & scores & mx & mi & Hcs & [_ Hmax] & Hacc).
  exists res, qres, scores.
  destruct mx as [m|], mi as [i|]; try contradiction.
  - exists i, m. destruct Hmax as (Hi & Hle & Hfirst). by repeat split.
  - exfalso. destruct Hcs as (kc & vc & qkc & kbits & qvc & vbits & fl
                   & _ & _ & _ & _ & _ & _ & _ & H4).
    apply Forall2_length in H4. rewrite enumerate_length in H4.
    subst scores. by destruct (Question.choice_length q).
Qed.

Ltac decide_ties :=
  repeat match goal with
  | |- context [Rgt_dec ?a ?b] =>
      destruct (Rgt_dec a b) as [?|_]; [exfalso; lra|]
  end.

Lemma choice_scores_are_normalised_log_probabilities_witness :
  value (_evaluate_single two_token_evaluator 0 two_token_question)
  = Ok two_token_result /\
  (1 <= Question.question_length two_token_question)%nat /\
  exists res qres scores,
    computed_scores two_token_evaluator two_token_question res qres scores /\
    forall c L,
      Question.choice_length two_token_question !! c = Some L ->
      scores !! c
      = Some (spec_choice_score (Model.logits res) (Model.logits qres)
                (Question.input_ids two_token_question)
                (Question.question_length two_token_question) c L) /\
      (Question.answer_idx two_token_question = Z.of_nat c ->
       answer_log_probability two_token_result = scores !! c).
Proof.
  assert (H : value (_evaluate_single two_token_evaluator 0 two_token_question)
              = Ok two_token_result) by reflexivity.
  split; [exact H|]. split; [simpl; lia|].
  apply (choice_scores_are_normalised_log_probabilities
           two_token_evaluator 0 two_token_question two_token_result H).
  - simpl. lia.
  - repeat constructor; simpl; lia.
Defined.

Lemma predicted_choice_is_first_maximum_witness :
  value (_evaluate_single tied_evaluator 0 (tied_question 2)) = Ok tied_result /\
  Question.choice_length (tied_question 2) <> [] /\
  exists res qres scores i m,
    computed_scores tied_evaluator (tied_question 2) res qres scores /\
    scores !! i = Some m /\
    (forall j s, scores !! j = Some s -> s <= m) /\
    (forall j, scores !! j = Some m -> (i <= j)%nat) /\
    accuracy tied_result
    = (if (Z.of_nat i =? Question.answer_idx (tied_question 2))%Z
       then 1 else 0).
Proof.
  assert (H : value (_evaluate_single tied_evaluator 0 (tied_question 2))
              = Ok tied_result)
    by (run_code; decide_ties; reflexivity).
  split; [exact H|]. split; [discriminate|].
  apply (predicted_choice_is_first_maximum
           tied_evaluator 0 (tied_question 2) tied_result H).
  discriminate.
Defined.

(** The three-way tie of the specification's test: choice 0 is predicted,
    so the question counts as correct when the answer is 0 and as wrong
    when the answer is the equally scored choice 2. *)
Example three_way_tie_predicts_first :
  (exists r, value (_evaluate_single (toy_evaluator "token" []) 0
                      (tied_question 0)) = Ok r /\ accuracy r = 1) /\
  (exists r, value (_evaluate_single (toy_evaluator "token" []) 0
                      (tied_question 2)) = Ok r /\ accuracy r = 0).
Proof.
  split; eexists; run_code; decide_ties; split; reflexivity.
Qed.

(** ** Questions the data model excludes *)

Lemma hit_invalid (mi : option nat) (a : Z) (n : nat) :
  (forall i, mi = Some i -> (i < n)%nat) ->
  ~ (0 <= a < Z.of_nat n)%Z -> hit mi a = 0.
Proof.
  intros Hmi Ha. destruct mi as [i|]; simpl; [|reflexivity].
  specialize (Hmi i eq_refl).
  destruct (Z.eqb_spec (Z.of_nat i) a); [lia | reflexivity].
Qed.

Lemma single_result_of_invalid_question (self : Evaluator) (idx : nat)
    (q : Question.t) (r : EvaluationResult) :
  ~ (0 <= Question.answer_idx q
       < Z.of_nat (List.length (Question.choice_length q)))%Z ->
  value (_evaluate_single self idx q) = Ok r ->
  answer_log_probability r = None /\ accuracy r = 0.
Proof.
  intros Ha H.
  apply _evaluate_single_scores in H
    as (res & qres & scores & mx & mi & Hcs & [Halp Hmax] & Hacc).
  destruct Hcs as (kc & vc & qkc & kbits & qvc & vbits & fl
                   & _ & _ & _ & _ & _ & _ & _ & H4).
  apply Forall2_length in H4. rewrite enumerate_length in H4.
  split.
  - rewrite Halp. rewrite decide_False; [reflexivity|]. by rewrite <- H4.
  - rewrite Hacc. eapply hit_invalid; [|exact Ha].
    intros i ->. destruct mx as [m|]; [|contradiction].
    destruct Hmax as (Hi & _). apply lookup_lt_Some in Hi. lia.
Qed.

Lemma accumulate_None (res single : EvaluationResult) (n : nat) :
  answer_log_probability single = None ->
  accumulate res single n = Err TypeError.
Proof.
  intros H. unfold accumulate. rewrite H.
  by destruct (answer_log_probability res).
Qed.

Lemma evaluate_loop_invalid (self : Evaluator) (q : Question.t)
    (qs : list (nat * Question.t)) (res : EvaluationResult) (total : nat) :
  ~ (0 <= Question.answer_idx q
       < Z.of_nat (List.length (Question.choice_length q)))%Z ->
  In q (map snd qs) ->
  exists e, value (evaluate_loop self qs res total) = Err e.
Proof.
  intros Ha. revert res total.
  induction qs as [|[i q'] qs IH]; intros res total Hin; [contradiction|].
  simpl evaluate_loop.
  destruct (value (_evaluate_single self i q')) as [single|e] eqn:Hs.
  2:{ exists e. by apply value_ebind_Err. }
  rewrite (value_ebind _ _ _ Hs).
  destruct (accumulate res single (Question.question_length q'))
    as [res'|e] eqn:Hacc.
  2:{ exists e. reflexivity. }
  destruct Hin as [Heq|Hin].
  - simpl in Heq. subst q'.
    apply (single_result_of_invalid_question _ _ _ _ Ha) in Hs as [Hnone _].
    rewrite (accumulate_None _ _ _ Hnone) in Hacc. discriminate.
  - destruct (IH res' (total + Question.question_length q')%nat Hin) as [e He].
    exists e. unfold value in *.
    by destruct (evaluate_loop self qs res' _) as [v evs]; simpl in *.
Qed.

(** C8 (as the code has it): [_evaluate_single] checks neither the choices
    nor [answer_idx].  For a question without choices, or whose
    [answer_idx] is not an index into them, whatever it returns has
    [answer_log_probability] at [None] and [accuracy] at 0; the run is
    aborted one level up: [evaluate] over a corpus that contains such a
    question never returns a result. *)
Theorem invalid_question_aborts_in_evaluate (self : Evaluator) (q : Question.t) :
  Question.choice_length q = [] \/
  ~ (0 <= Question.answer_idx q
       < Z.of_nat (List.length (Question.choice_length q)))%Z ->
  (forall idx r,
      value (_evaluate_single self idx q) = Ok r ->
      answer_log_probability r = None /\ accuracy r = 0) /\
  (In q (questions self) ->
   forall use_tqdm, exists e, value (evaluate self use_tqdm) = Err e).
Proof.
  intros H.
  assert (Ha : ~ (0 <= Question.answer_idx q
                    < Z.of_nat (List.length (Question.choice_length q)))%Z).
  { destruct H as [H|H]; [|exact H]. rewrite H. simpl. lia. }
  split.
  - intros idx r. by apply single_result_of_invalid_question.
  - intros Hin use_tqdm. unfold evaluate.
    destruct (evaluate_loop_invalid self q
                (enumerate (if use_tqdm then tqdm (questions self)
                            else questions self))
                EvaluationResult_default 0 Ha) as [e He].
    { rewrite map_snd_enumerate. by destruct use_tqdm. }
    exists e. by apply value_ebind_Err.
Qed.

Lemma invalid_question_aborts_in_evaluate_witness :
  ~ (0 <= Question.answer_idx misindexed_question
       < Z.of_nat (List.length (Question.choice_length misindexed_question)))%Z /\
  In misindexed_question (questions misindexed_evaluator) /\
  exists e, value (evaluate misindexed_evaluator false) = Err e.
Proof.
  assert (Ha : ~ (0 <= Question.answer_idx misindexed_question
       < Z.of_nat (List.length (Question.choice_length misindexed_question)))%Z)
    by (simpl; lia).
  split; [exact Ha|]. split; [by left|].
  apply (proj2 (invalid_question_aborts_in_evaluate
                  misindexed_evaluator misindexed_question (or_intror Ha))).
  by left.
Defined.

(** C8 (as the spec states it) fails: on a question whose [answer_idx] is
    out of range the single-question evaluation does return an
    [EvaluationResult], with [None] where the log-probability should be. *)
Lemma single_evaluation_returns_on_invalid_answer_idx :
  ~ (0 <= Question.answer_idx misindexed_question
       < Z.of_nat (List.length (Question.choice_length misindexed_question)))%Z /\
  exists r,
    value (_evaluate_single misindexed_evaluator 0 misindexed_question) = Ok r /\
    answer_log_probability r = None /\ accuracy r = 0.
Proof.
  split; [simpl; lia|].
  eexists. split; [reflexivity|]. split; reflexivity.
Qed.

(** For that corpus [evaluate] stops at [result.answer_log_probability +=
    None]. *)
Example misindexed_corpus_raises_TypeError :
  value (evaluate misindexed_evaluator false) = Err TypeError.
Proof. reflexivity. Qed.

(** ** Corpus aggregation: the accumulator *)

Lemma fold_left_Rplus (l : list R) (a : R) : fold_left Rplus l a = a + rsum l.
Proof.
  unfold rsum. revert a. induction l as [|x l IH]; intros a; simpl.
  - lra.
  - rewrite (IH (a + x)), (IH (0 + x)). lra.
Qed.

Lemma rsum_cons (x : R) (l : list R) : rsum (x :: l) = x + rsum l.
Proof. unfold rsum at 1. simpl. rewrite fold_left_Rplus. lra. Qed.

Lemma evaluate_loop_totals (self : Evaluator) (qs : list (nat * Question.t))
    (rs : list EvaluationResult) (res : EvaluationResult) (total : nat) :
  Forall2 (fun iq r => value (_evaluate_single self iq.1 iq.2) = Ok r) qs rs ->
  value (evaluate_loop self qs res total)
  = let! res' := totals res (combine rs (map snd qs)) in
    Ok (res', (total + total_question_length (map snd qs))%nat).
Proof.
  intros H. revert res total.
  induction H as [|[i q] r qs rs Hr _ IH]; intros res total.
  - simpl. unfold total_question_length. simpl. by rewrite Nat.add_0_r.
  - simpl in Hr. simpl evaluate_loop. rewrite (value_ebind _ _ _ Hr).
    cbv beta. simpl combine. simpl totals.
    destruct (accumulate res r (Question.question_length q)) as [res'|e];
      [|reflexivity].
    simpl rbind.
    transitivity (value (evaluate_loop self qs res'
                           (total + Question.question_length q))).
    { unfold value. by destruct (evaluate_loop self qs res' _). }
    rewrite IH. unfold total_question_length. simpl.
    by rewrite Nat.add_assoc.
Qed.

Ltac accumulate_field :=
  intros res r n res' H; unfold accumulate in H;
  destruct (py_iadd _ _); simpl in H; [|discriminate H];
  injection H as <-; reflexivity.

Lemma adds_up_accuracy : adds_up accuracy.
Proof. accumulate_field. Qed.
Lemma adds_up_quantization_error : adds_up quantization_error.
Proof. accumulate_field. Qed.
Lemma adds_up_key_quantization_error : adds_up key_quantization_error.
Proof. accumulate_field. Qed.
Lemma adds_up_value_quantization_error : adds_up value_quantization_error.
Proof. accumulate_field. Qed.
Lemma adds_up_attention_error : adds_up attention_error.
Proof. accumulate_field. Qed.
Lemma adds_up_logit_error : adds_up logit_error.
Proof. accumulate_field. Qed.
Lemma adds_up_average_n_bits : adds_up_weighted average_n_bits.
Proof. accumulate_field. Qed.
Lemma adds_up_key_average_n_bits : adds_up_weighted key_average_n_bits.
Proof. accumulate_field. Qed.
Lemma adds_up_value_average_n_bits : adds_up_weighted value_average_n_bits.
Proof. accumulate_field. Qed.
Lemma adds_up_average_size : adds_up_weighted average_size.
Proof. accumulate_field. Qed.
Lemma adds_up_key_average_size : adds_up_weighted key_average_size.
Proof. accumulate_field. Qed.
Lemma adds_up_value_average_size : adds_up_weighted value_average_size.
Proof. accumulate_field. Qed.

Lemma totals_adds_up (f : EvaluationResult -> R) :
  adds_up f ->
  forall rs qs res res',
    List.length rs = List.length qs ->
    totals res (combine rs qs) = Ok res' ->
    f res' = f res + rsum (map f rs).
Proof.
  intros Hf. induction rs as [|r rs IH]; intros [|q qs] res res' Hlen H;
    simpl in *; try discriminate.
  - injection H as <-. unfold rsum. simpl. lra.
  - apply rbind_Ok in H as (res1 & H1 & H).
    rewrite (IH qs res1 res') by (done || lia).
    rewrite (Hf _ _ _ _ H1), rsum_cons. lra.
Qed.

Lemma totals_adds_up_weighted (f : EvaluationResult -> R) :
  adds_up_weighted f ->
  forall rs qs res res',
    totals res (combine rs qs) = Ok res' ->
    f res' = f res + token_weighted_sum f rs qs.
Proof.
  intros Hf. unfold token_weighted_sum.
  induction rs as [|r rs IH]; intros [|q qs] res res' H; simpl in *;
    try (injection H as <-; unfold rsum; simpl; lra).
  apply rbind_Ok in H as (res1 & H1 & H).
  rewrite (IH qs res1 res') by done.
  rewrite (Hf _ _ _ _ H1), rsum_cons. lra.
Qed.

Lemma totals_answer_log_probability (rs : list EvaluationResult)
    (alps : list R) (qs : list Question.t) (res : EvaluationResult) (a0 : R) :
  answer_log_probability res = Some a0 ->
  map answer_log_probability rs = map Some alps ->
  List.length rs = List.length qs ->
  exists res',
    totals res (combine rs qs) = Ok res' /\
    answer_log_probability res' = Some (a0 + rsum alps).
Proof.
  revert alps qs res a0.
  induction rs as [|r rs IH]; intros [|a alps] [|q qs] res a0 H0 Hmap Hlen;
    simpl in *; try discriminate.
  - exists res. split; [reflexivity|]. rewrite H0. f_equal. unfold rsum. simpl. lra.
  - injection Hmap as Ha Hmap. injection Hlen as Hlen.
    unfold accumulate at 1. rewrite H0, Ha. simpl.
    edestruct (IH alps qs) as (res' & Hres' & Halp);
      [| exact Hmap | exact Hlen | ].
    2:{ exists res'. split; [exact Hres'|]. rewrite Halp, rsum_cons.
        f_equal. rewrite Rplus_assoc. reflexivity. }
    reflexivity.
Qed.

(** ** Corpus aggregation: the final statistics *)

Lemma hit_01 (mi : option nat) (a : Z) : hit mi a = 0 \/ hit mi a = 1.
Proof.
  destruct mi as [i|]; simpl; [|by left].
  destruct (Z.of_nat i =? a)%Z; [by right | by left].
Qed.

Lemma single_accuracy_01 (self : Evaluator) (idx : nat) (q : Question.t)
    (r : EvaluationResult) :
  value (_evaluate_single self idx q) = Ok r -> accuracy r = 0 \/ accuracy r = 1.
Proof.
  intros H. apply _evaluate_single_inv in H
    as (res & kc & vc & qkc & kbits & qvc & vbits & qres & fl & mx & mi & alp
        & _ & _ & _ & _ & _ & _ & _ & _ & H5 & _).
  rewrite H5. apply hit_01.
Qed.

Lemma rsum_01_bounds (xs : list R) :
  Forall (fun x => x = 0 \/ x = 1) xs -> 0 <= rsum xs <= INR (List.length xs).
Proof.
  induction 1 as [|x xs Hx _ IH].
  - unfold rsum. simpl. lra.
  - rewrite rsum_cons. change (List.length (x :: xs)) with (S (List.length xs)).
    rewrite S_INR. destruct Hx as [-> | ->]; lra.
Qed.

Lemma rsum_accuracy_count (rs : list EvaluationResult) (correct : list bool) :
  Forall2 (fun r (b : bool) => accuracy r = if b then 1 else 0) rs correct ->
  rsum (map accuracy rs) = INR (count_correct correct).
Proof.
  unfold count_correct. induction 1 as [|r b rs bs Hr _ IH]; simpl.
  - unfold rsum. reflexivity.
  - rewrite rsum_cons, IH, Hr. destruct b; simpl List.length.
    + rewrite S_INR. lra.
    + lra.
Qed.

Lemma variance_nonneg (s n : R) :
  0 < n -> 0 <= s <= n -> 0 <= s / n * (1 - s / n) / n.
Proof.
  intros Hn Hs. unfold Rdiv.
  assert (Hi : 0 < / n) by (apply Rinv_0_lt_compat; lra).
  assert (H0 : 0 <= s * / n) by (apply Rmult_le_pos; lra).
  assert (H1 : s * / n <= 1).
  { rewrite <- (Rinv_r n) by lra. apply Rmult_le_compat_r; lra. }
  apply Rmult_le_pos; [|lra]. apply Rmult_le_pos; lra.
Qed.

Lemma finalize_Ok (res : EvaluationResult) (n t : nat) (a : R) :
  n <> 0%nat -> t <> 0%nat ->
  answer_log_probability res = Some a ->
  0 <= accuracy res <= INR n ->
  finalize res n t = Ok {|
    accuracy := accuracy res / INR n;
    accuracy_confidence :=
      1.96 * sqrt (accuracy res / INR n * (1 - accuracy res / INR n) / INR n);
    answer_log_probability := Some (a / INR n);
    quantization_error := quantization_error res / INR n;
    key_quantization_error := key_quantization_error res / INR n;
    value_quantization_error := value_quantization_error res / INR n;
    attention_error := attention_error res / INR n;
    logit_error := logit_error res / INR n;
    average_n_bits := average_n_bits res / INR t;
    key_average_n_bits := key_average_n_bits res / INR t;
    value_average_n_bits := value_average_n_bits res / INR t;
    average_size := average_size res / INR t;
    key_average_size := key_average_size res / INR t;
    value_average_size := value_average_size res / INR t |}.
Proof.
  intros Hn Ht Ha Hacc. unfold finalize, py_idiv. rewrite Ha.
  repeat (rewrite py_div_int_Ok by assumption; simpl).
  unfold math_sqrt.
  match goal with
  | |- context [Rlt_dec ?x 0] => destruct (Rlt_dec x 0) as [Hneg|_]
  end; [|reflexivity].
  exfalso. apply (Rlt_not_le _ _ Hneg). apply variance_nonneg; [|exact Hacc].
  apply lt_0_INR. lia.
Qed.

Lemma evaluate_returns (self : Evaluator) (use_tqdm : bool)
    (rs : list EvaluationResult) (alps : list R) :
  questions self <> [] ->
  Forall2 (fun iq r => value (_evaluate_single self iq.1 iq.2) = Ok r)
          (enumerate (questions self)) rs ->
  map answer_log_probability rs = map Some alps ->
  total_question_length (questions self) <> 0%nat ->
  exists r,
    value (evaluate self use_tqdm) = Ok r /\
    corpus_statistics rs alps (questions self) r.
Proof.
  intros Hne Hrs Halps Ht.
  assert (Hlen : List.length rs = List.length (questions self)).
  { apply Forall2_length in Hrs. by rewrite enumerate_length in Hrs. }
  assert (H01 : Forall (fun x => x = 0 \/ x = 1) (map accuracy rs)).
  { apply Forall_fmap. eapply Forall2_Forall_r; [exact Hrs|].
    apply Forall_forall. intros [i q] _ r Hr. by eapply single_accuracy_01. }
  apply rsum_01_bounds in H01. rewrite length_map, Hlen in H01.
  destruct (totals_answer_log_probability rs alps (questions self)
              EvaluationResult_default 0 eq_refl Halps Hlen)
    as (res' & Hres' & Halp).
  pose proof (evaluate_loop_totals self _ rs EvaluationResult_default 0 Hrs)
    as Hloop.
  rewrite map_snd_enumerate, Hres' in Hloop. simpl in Hloop.
  pose proof (totals_adds_up _ adds_up_accuracy _ _ _ _ Hlen Hres') as Eacc.
  simpl in Eacc. rewrite Rplus_0_l in Eacc.
  eexists. split.
  - unfold evaluate.
    replace (if use_tqdm then tqdm (questions self) else questions self)
      with (questions self) by (by destruct use_tqdm).
    rewrite (value_ebind _ _ _ Hloop). rewrite value_lift.
    eapply (finalize_Ok res').
    + by destruct (questions self).
    + exact Ht.
    + exact Halp.
    + by rewrite Eacc.
  - unfold corpus_statistics. simpl.
    rewrite Eacc, !Rplus_0_l.
    rewrite (totals_adds_up _ adds_up_quantization_error _ _ _ _ Hlen Hres'),
      (totals_adds_up _ adds_up_key_quantization_error _ _ _ _ Hlen Hres'),
      (totals_adds_up _ adds_up_value_quantization_error _ _ _ _ Hlen Hres'),
      (totals_adds_up _ adds_up_attention_error _ _ _ _ Hlen Hres'),
      (totals_adds_up _ adds_up_logit_error _ _ _ _ Hlen Hres'),
      (totals_adds_up_weighted _ adds_up_average_n_bits _ _ _ _ Hres'),
      (totals_adds_up_weighted _ adds_up_key_average_n_bits _ _ _ _ Hres'),
      (totals_adds_up_weighted _ adds_up_value_average_n_bits _ _ _ _ Hres'),
      (totals_adds_up_weighted _ adds_up_average_size _ _ _ _ Hres'),
      (totals_adds_up_weighted _ adds_up_key_average_size _ _ _ _ Hres'),
      (totals_adds_up_weighted _ adds_up_value_average_size _ _ _ _ Hres').
    simpl. rewrite !Rplus_0_l. repeat split; reflexivity.
Qed.

(** C3: for a non-empty question list whose per-question evaluations
    return the results [rs] (with log-probabilities [alps]) and whose total
    prefix length is not zero, [evaluate] returns, and in its result
    [accuracy], [answer_log_probability], the three quantization errors,
    [attention_error] and [logit_error] are the sums over the questions
    divided by the question count, while the bit-widths and sizes are the
    sums of value times [question_length] divided by the total
    [question_length]. *)
Theorem corpus_means_and_token_weighted_means
    (self : Evaluator) (use_tqdm : bool)
    (rs : list EvaluationResult) (alps : list R) :
  questions self <> [] ->
  Forall2 (fun iq r => value (_evaluate_single self iq.1 iq.2) = Ok r)
          (enumerate (questions self)) rs ->
  map answer_log_probability rs = map Some alps ->
  total_question_length (questions self) <> 0%nat ->
  exists r,
    value (evaluate self use_tqdm) = Ok r /\
    accuracy r
    = rsum (map accuracy rs) / INR (List.length (questions self)) /\
    answer_log_probability r
    = Some (rsum alps / INR (List.length (questions self))) /\
    quantization_error r
    = rsum (map quantization_error rs) / INR (List.length (questions self)) /\
    key_quantization_error r
    = rsum (map key_quantization_error rs)
      / INR (List.length (questions self)) /\
    value_quantization_error r
    = rsum (map value_quantization_error rs)
      / INR (List.length (questions self)) /\
    attention_error r
    = rsum (map attention_error rs) / INR (List.length (questions self)) /\
    logit_error r
    = rsum (map logit_error rs) / INR (List.length (questions self)) /\
    average_n_bits r
    = token_weighted_sum average_n_bits rs (questions self)
      / INR (total_question_length (questions self)) /\
    key_average_n_bits r
    = token_weighted_sum key_average_n_bits rs (questions self)
      / INR (total_question_length (questions self)) /\
    value_average_n_bits r
    = token_weighted_sum value_average_n_bits rs (questions self)
      / INR (total_question_length (questions self)) /\
    average_size r
    = token_weighted_sum average_size rs (questions self)
      / INR (total_question_length (questions self)) /\
    key_average_size r
    = token_weighted_sum key_average_size rs (questions self)
      / INR (total_question_length (questions self)) /\
    value_average_size r
    = token_weighted_sum value_average_size rs (questions self)
      / INR (total_question_length (questions self)).
Proof.
  intros Hne Hrs Halps Ht.
  destruct (evaluate_returns self use_tqdm rs alps Hne Hrs Halps Ht)
    as (r & Hr & Hstat).
  exists r. split; [exact Hr|].
  unfold corpus_statistics in Hstat. tauto.
Qed.

(** C7: for a corpus of [n >= 1] questions of which exactly [k] are
    answered correctly (per-question accuracy 1, the others 0), [evaluate]
    returns [accuracy = k / n] and
    [accuracy_confidence = 1.96 * sqrt (accuracy * (1 - accuracy) / n)],
    which is 0 when the accuracy is 0 or 1. *)
Theorem accuracy_and_confidence
    (self : Evaluator) (use_tqdm : bool)
    (rs : list EvaluationResult) (alps : list R)
    (correct : list bool) (k : nat) :
  (1 <= List.length (questions self))%nat ->
  Forall2 (fun iq r => value (_evaluate_single self iq.1 iq.2) = Ok r)
          (enumerate (questions self)) rs ->
  map answer_log_probability rs = map Some alps ->
  total_question_length (questions self) <> 0%nat ->
  Forall2 (fun r (b : bool) => accuracy r = if b then 1 else 0) rs correct ->
  count_correct correct = k ->
  exists r,
    value (evaluate self use_tqdm) = Ok r /\
    accuracy r = INR k / INR (List.length (questions self)) /\
    accuracy_confidence r
    = 1.96 * sqrt (accuracy r * (1 - accuracy r)
                   / INR (List.length (questions self))) /\
    (accuracy r = 0 \/ accuracy r = 1 -> accuracy_confidence r = 0).
Proof.
  intros Hn Hrs Halps Ht Hcorrect Hk.
  assert (Hne : questions self <> []).
  { intros E. rewrite E in Hn. simpl in Hn. lia. }
  destruct (evaluate_returns self use_tqdm rs alps Hne Hrs Halps Ht)
    as (r & Hr & Hacc & Hconf & _).
  exists r. split; [exact Hr|]. split; [|split; [exact Hconf|]].
  - by rewrite Hacc, (rsum_accuracy_count rs correct Hcorrect), Hk.
  - intros H01. rewrite Hconf.
    replace (accuracy r * (1 - accuracy r)
             / INR (List.length (questions self))) with 0.
    + rewrite sqrt_0. lra.
    + unfold Rdiv. destruct H01 as [-> | ->]; ring.
Qed.

Lemma corpus_means_and_token_weighted_means_witness :
  questions two_length_evaluator <> [] /\
  map Question.question_length (questions two_length_evaluator)
  = [10%nat; 30%nat] /\
  map average_size two_length_results = [10 / 5; 30 / 5] /\
  exists r,
    value (evaluate two_length_evaluator false) = Ok r /\
    average_size r = 5.
Proof.
  split; [discriminate|]. split; [reflexivity|].
  split; [run_code; f_equal; [lra | f_equal; lra]|].
  destruct (corpus_means_and_token_weighted_means
              two_length_evaluator false two_length_results
              (map alp_of two_length_results))
    as (r & Hr & _ & _ & _ & _ & _ & _ & _ & _ & _ & _ & Hsize & _).
  - discriminate.
  - repeat constructor.
  - reflexivity.
  - discriminate.
  - exists r. split; [exact Hr|]. rewrite Hsize. run_code. lra.
Defined.

Lemma accuracy_and_confidence_witness :
  (1 <= List.length (questions half_right_evaluator))%nat /\
  count_correct [true; false] = 1%nat /\
  exists r,
    value (evaluate half_right_evaluator true) = Ok r /\
    accuracy r = INR 1 / INR (List.length (questions half_right_evaluator)) /\
    accuracy_confidence r
    = 1.96 * sqrt (accuracy r * (1 - accuracy r)
                   / INR (List.length (questions half_right_evaluator))) /\
    (accuracy r = 0 \/ accuracy r = 1 -> accuracy_confidence r = 0).
Proof.
  split; [simpl; lia|]. split; [reflexivity|].
  apply (accuracy_and_confidence half_right_evaluator true
           half_right_results (map alp_of half_right_results)
           [true; false] 1).
  - simpl. lia.
  - repeat constructor; run_code; decide_ties; reflexivity.
  - run_code; decide_ties; reflexivity.
  - discriminate.
  - repeat constructor; run_code; decide_ties; reflexivity.
  - reflexivity.
Defined.

(** ** Result cache *)

Lemma find_first_match {A} (p : A -> bool) (pre post : list A) (x : A) :
  Forall (fun y => p y = false) pre -> p x = true ->
  find p (pre ++ x :: post) = Some x.
Proof.
  intros Hpre Hx. induction Hpre as [|y pre Hy _ IH]; simpl.
  - by rewrite Hx.
  - by rewrite Hy.
Qed.

Lemma find_no_match {A} (p : A -> bool) (l : list A) :
  Forall (fun y => p y = false) l -> find p l = None.
Proof. induction 1 as [|y l Hy _ IH]; simpl; [done | by rewrite Hy]. Qed.

Lemma find_None_Forall {A} (p : A -> bool) (l : list A) :
  find p l = None -> Forall (fun y => p y = false) l.
Proof.
  induction l as [|y l IH]; simpl; [constructor|].
  destruct (p y) eqn:Hy; [discriminate|]. intros H. constructor; auto.
Qed.

Lemma find_pointwise {A} (p p' : A -> bool) (l : list A) :
  (forall x, p x = p' x) -> find p l = find p' l.
Proof.
  intros H. induction l as [|y l IH]; simpl; [reflexivity|].
  by rewrite H, IH.
Qed.

(** [==] is an equivalence on the values, on the mappings and on the
    fingerprints. *)
Lemma py_eq_refl (a : jval) : py_eq a a.
Proof. destruct a; simpl; auto. Qed.

Lemma py_eq_sym (a b : jval) : py_eq a b -> py_eq b a.
Proof. destruct a, b; simpl; try tauto; congruence. Qed.

Lemma py_eq_trans (a b c : jval) : py_eq a b -> py_eq b c -> py_eq a c.
Proof. destruct a, b, c; simpl; try tauto; congruence. Qed.

Lemma dict_eq_refl (d : gmap string jval) : dict_eq d d.
Proof. intros i. destruct (d !! i); simpl; [apply py_eq_refl | done]. Qed.

Lemma dict_eq_sym (d1 d2 : gmap string jval) : dict_eq d1 d2 -> dict_eq d2 d1.
Proof.
  intros H i. specialize (H i).
  destruct (d1 !! i), (d2 !! i); simpl in *; try done. by apply py_eq_sym.
Qed.

Lemma dict_eq_trans (d1 d2 d3 : gmap string jval) :
  dict_eq d1 d2 -> dict_eq d2 d3 -> dict_eq d1 d3.
Proof.
  intros H12 H23 i. specialize (H12 i). specialize (H23 i).
  destruct (d1 !! i), (d2 !! i), (d3 !! i); simpl in *; try done.
  by eapply py_eq_trans.
Qed.

Lemma params_eq_refl (p : Params) : params_eq p p.
Proof. repeat split; apply dict_eq_refl. Qed.

Lemma params_eq_sym (p1 p2 : Params) : params_eq p1 p2 -> params_eq p2 p1.
Proof.
  intros (H1 & H2 & H3 & H4 & H5).
  repeat split; try done; by apply dict_eq_sym.
Qed.

Lemma params_eq_trans (p1 p2 p3 : Params) :
  params_eq p1 p2 -> params_eq p2 p3 -> params_eq p1 p3.
Proof.
  intros (H1 & H2 & H3 & H4 & H5) (K1 & K2 & K3 & K4 & K5).
  repeat split; try congruence; by eapply dict_eq_trans.
Qed.


Lemma matches_own_params (self : Evaluator) (r : EvaluationResult) :
  matches self {| entry_params := params self; entry_results := r |} = true.
Proof. apply bool_decide_eq_true, params_eq_refl. Qed.

Lemma matches_same_params (self self' : Evaluator) (entry : cache_entry) :
  params_eq (params self') (params self) ->
  matches self' entry = matches self entry.
Proof.
  intros H. unfold matches. apply bool_decide_ext. split; intros Hx.
  - by eapply params_eq_trans.
  - eapply params_eq_trans; [exact Hx|]. by apply params_eq_sym.
Qed.

Lemma cached_evaluate_lookup (self : Evaluator) (path : string)
    (use_tqdm : bool) (fs : gmap string file) (entries : list cache_entry) :
  fs !! path = Some (Records entries) ->
  cached_evaluate self (Some path) use_tqdm fs
  = match find (matches self) entries with
    | Some entry => ((Ok (entry_results entry), []), fs)
    | None =>
        match evaluate self use_tqdm with
        | (Ok res, evs) =>
            ((Ok res, evs),
             <[path := Records (entries ++ [{| entry_params := params self;
                                               entry_results := res |}])]>
               (saved_figures evs fs))
        | (Err e, evs) => ((Err e, evs), saved_figures evs fs)
        end
    end.
Proof. intros H. unfold cached_evaluate. by rewrite H. Qed.

Lemma cached_evaluate_round_trip (self self' : Evaluator) (path : string)
    (use_tqdm use_tqdm' : bool) (fs fs' : gmap string file)
    (r : EvaluationResult) (evs : list event) :
  cached_evaluate self (Some path) use_tqdm fs = ((Ok r, evs), fs') ->
  params_eq (params self') (params self) ->
  cached_evaluate self' (Some path) use_tqdm' fs' = ((Ok r, []), fs').
Proof.
  intros H Hp.
  assert (Hnew : forall entries fs0,
    find (matches self) entries = None ->
    cached_evaluate self' (Some path) use_tqdm'
      (<[path := Records (entries ++ [{| entry_params := params self;
                                         entry_results := r |}])]> fs0)
    = ((Ok r, []),
       <[path := Records (entries ++ [{| entry_params := params self;
                                         entry_results := r |}])]> fs0)).
  { intros entries fs0 Hnone.
    rewrite (cached_evaluate_lookup self' path use_tqdm' _ _
               (lookup_insert_eq _ _ _)).
    rewrite (find_pointwise (matches self') (matches self))
      by (intros x; by apply matches_same_params).
    rewrite (find_first_match (matches self) entries []).
    - reflexivity.
    - by apply find_None_Forall.
    - apply matches_own_params. }
  destruct (fs !! path) as [[entries| |]|] eqn:Hfs.
  - rewrite (cached_evaluate_lookup _ _ _ _ _ Hfs) in H.
    destruct (find (matches self) entries) as [entry|] eqn:Hfind.
    + injection H as <- <- <-.
      rewrite (cached_evaluate_lookup _ _ _ _ _ Hfs).
      rewrite (find_pointwise (matches self') (matches self))
        by (intros x; by apply matches_same_params).
      by rewrite Hfind.
    + destruct (evaluate self use_tqdm) as [[res|e] evs0]; [|discriminate].
      injection H as <- <- <-. by apply Hnew.
  - unfold cached_evaluate in H. rewrite Hfs in H. discriminate.
  - unfold cached_evaluate in H. rewrite Hfs in H. discriminate.
  - unfold cached_evaluate in H. rewrite Hfs in H.
    destruct (evaluate self use_tqdm) as [[res|e] evs0]; [|discriminate].
    injection H as <- <- <-. by apply (Hnew []).
Qed.



Lemma stale_entry_mismatches :
  ~ params_eq (entry_params stale_entry) (params two_token_evaluator).
Proof. intros (H & _). discriminate H. Qed.


Lemma cached_evaluate_no_store (self : Evaluator) (path : string)
    (use_tqdm : bool) (fs : gmap string file) :
  fs !! path = None ->
  cached_evaluate self (Some path) use_tqdm fs
  = match evaluate self use_tqdm with
    | (Ok res, evs) =>
        ((Ok res, evs),
         <[path := Records [{| entry_params := params self;
                               entry_results := res |}]]>
           (saved_figures evs fs))
    | (Err e, evs) => ((Err e, evs), saved_figures evs fs)
    end.
Proof. intros H. unfold cached_evaluate. by rewrite H. Qed.

(** Starting without a store: the first run calls the model twice and
    writes the store, the second run returns the same result and calls
    nothing. *)
Example cache_round_trip_from_scratch :
  exists r fs',
    cached_evaluate two_token_evaluator (Some cache_path) false ∅
    = ((Ok r, [EvForward; EvForward]), fs') /\
    cached_evaluate two_token_evaluator (Some cache_path) true fs'
    = ((Ok r, []), fs').
Proof.
  destruct (evaluate_returns two_token_evaluator false [two_token_result]
              [alp_of two_token_result]) as (r & Hr & _).
  { discriminate. }
  { repeat constructor. }
  { reflexivity. }
  { discriminate. }
  assert (E : evaluate two_token_evaluator false
              = (Ok r, [EvForward; EvForward])).
  { etransitivity; [apply eff_eta|]. rewrite Hr. f_equal. }
  assert (F : cached_evaluate two_token_evaluator (Some cache_path) false ∅
    = ((Ok r, [EvForward; EvForward]),
       <[cache_path := Records [{| entry_params := params two_token_evaluator;
                                   entry_results := r |}]]> ∅)).
  { rewrite cached_evaluate_no_store by apply lookup_empty. by rewrite E. }
  eexists r, _. split; [exact F|].
  apply (cached_evaluate_round_trip two_token_evaluator two_token_evaluator
           cache_path false true ∅ _ r [EvForward; EvForward] F).
  apply params_eq_refl.
Qed.

(** ** The tensor error on vectors *)

Lemma zipM_sub (a b : list R) :
  zipM (fun x y => Ok (x - y)) a b
  = Ok (map (fun '(x, y) => x - y) (combine a b)).
Proof.
  revert b. induction a as [|x a IH]; intros [|y b]; simpl; try reflexivity.
  by rewrite IH.
Qed.

Lemma flat_vector (a : list R) : flat a = a.
Proof. simpl. induction a as [|x a IH]; simpl; congruence. Qed.

(** Over the reals, the error of two vectors of one length is the mean of
    the squared differences. *)
Lemma tensor_error_of_vectors (self : Evaluator) (a b : list R) :
  List.length a = List.length b ->
  _calc_tensor_error self a b
  = Ok (rsum (map (fun '(x, y) => (x - y) ^ 2) (combine a b))
        / INR (List.length a)).
Proof.
  intros Hlen. unfold _calc_tensor_error, to. simpl tsub.
  unfold broadcast_sub. rewrite (proj2 (Nat.eqb_eq _ _) Hlen).
  change (zipM tsub a b) with (zipM (fun x y => Ok (x - y)) a b).
  rewrite zipM_sub. simpl rbind. unfold tmean, tpow2.
  change (tmap (fun x => x ^ 2) (map (fun '(x, y) => x - y) (combine a b)))
    with (map (fun x => x ^ 2) (map (fun '(x, y) => x - y) (combine a b))).
  rewrite flat_vector, map_map, length_map, length_combine.
  rewrite <- Hlen, Nat.min_id. do 3 f_equal.
  apply map_ext. by intros [x y].
Qed.

(** Equal vectors have error zero. *)
Lemma tensor_error_of_equal_vectors (self : Evaluator) (a : list R) :
  a <> [] -> _calc_tensor_error self a a = Ok 0.
Proof.
  intros Hne. rewrite tensor_error_of_vectors by reflexivity. f_equal.
  assert (H : rsum (map (fun '(x, y) => (x - y) ^ 2) (combine a a)) = 0).
  { clear Hne. induction a as [|x a IH]; [reflexivity|].
    simpl combine. rewrite map_cons, rsum_cons, IH. ring. }
  rewrite H. unfold Rdiv. ring.
Qed.

(** * Further properties of the code *)

(** ** Laws of the tensor operations *)

Lemma zipM_self {A} (f : A -> A -> result A) (g : A -> A) (l : list A) :
  (forall a, In a l -> f a a = Ok (g a)) -> zipM f l l = Ok (map g l).
Proof.
  induction l as [|a l IH]; intros H; simpl; [reflexivity|].
  rewrite (H a) by (by left). simpl.
  rewrite IH by (intros b Hb; apply H; by right). reflexivity.
Qed.

#[global] Instance scalar_laws : TensorLaws R.
Proof.
  split.
  - reflexivity.
  - intros a. exists (a - a). split; [reflexivity|]. simpl. f_equal. lra.
  - intros a b d [= <-]. exists (b - a). split; [reflexivity|].
    simpl. f_equal. lra.
Qed.

Lemma concat_map_flat_tmap {T} `{TensorLaws T} (f : R -> R) (l : list T) :
  concat (map flat (map (tmap f) l)) = map f (concat (map flat l)).
Proof.
  induction l as [|t l IH]; simpl; [reflexivity|].
  by rewrite flat_tmap, IH, map_app.
Qed.

Lemma zipM_tsub_self {T} `{TensorLaws T} (l : list T) :
  exists ds, zipM tsub l l = Ok ds /\
             concat (map flat ds) = map (fun _ => 0) (concat (map flat l)).
Proof.
  induction l as [|a l (ds & Hds & Hflat)]; simpl.
  - by exists [].
  - destruct (tsub_self a) as (d & Hd & Hd0). rewrite Hd, Hds. simpl.
    exists (d :: ds). split; [reflexivity|].
    simpl. by rewrite Hd0, Hflat, map_app.
Qed.

Lemma zipM_swap {T} `{TensorLaws T} (la lb ds : list T) :
  zipM tsub la lb = Ok ds ->
  exists ds', zipM tsub lb la = Ok ds' /\
              concat (map flat ds') = map Ropp (concat (map flat ds)).
Proof.
  revert lb ds. induction la as [|a la IH]; intros [|b lb] ds; simpl;
    try (intros [= <-]; by exists []).
  intros Hz. apply rbind_Ok in Hz as (d & Hd & Hz).
  apply rbind_Ok in Hz as (ds0 & Hds0 & [= <-]).
  destruct (tsub_swap _ _ _ Hd) as (d' & Hd' & Hflat).
  destruct (IH _ _ Hds0) as (ds' & Hds' & Hflats).
  rewrite Hd', Hds'. simpl. exists (d' :: ds'). split; [reflexivity|].
  simpl. by rewrite Hflat, Hflats, map_app.
Qed.

Lemma mapM_swap {T} `{TensorLaws T} (g h : T -> result T) (l ds : list T) :
  (forall x d, g x = Ok d ->
               exists d', h x = Ok d' /\ flat d' = map Ropp (flat d)) ->
  mapM g l = Ok ds ->
  exists ds', mapM h l = Ok ds' /\
              concat (map flat ds') = map Ropp (concat (map flat ds)).
Proof.
  intros Hgh. revert ds. induction l as [|x l IH]; intros ds; simpl.
  - intros [= <-]. by exists [].
  - intros Hm. apply rbind_Ok in Hm as (d & Hd & Hm).
    apply rbind_Ok in Hm as (ds0 & Hds0 & [= <-]).
    destruct (Hgh _ _ Hd) as (d' & Hd' & Hflat).
    destruct (IH _ Hds0) as (ds' & Hds' & Hflats).
    rewrite Hd', Hds'. simpl. exists (d' :: ds'). split; [reflexivity|].
    simpl. by rewrite Hflat, Hflats, map_app.
Qed.

#[global] Instance list_laws {T} `{TensorLaws T} : TensorLaws (list T).
Proof.
  split.
  - intros f l. apply concat_map_flat_tmap.
  - intros l. simpl. unfold broadcast_sub. rewrite Nat.eqb_refl.
    apply zipM_tsub_self.
  - intros la lb ds. simpl. unfold broadcast_sub.
    rewrite (Nat.eqb_sym (List.length lb)).
    destruct (List.length la =? List.length lb)%nat eqn:Hlen.
    + apply zipM_swap.
    + destruct la as [|a [|a' la]], lb as [|b [|b' lb]];
        try discriminate; simpl in Hlen; try discriminate;
        try (intros [= <-]; by exists []);
        apply mapM_swap; intros x d; apply tsub_swap.
Qed.

(** ** Tensor error metrics: sign, symmetry, identical operands *)

Lemma rsum_nonneg (l : list R) : Forall (fun x => 0 <= x) l -> 0 <= rsum l.
Proof.
  induction 1 as [|x l Hx _ IH].
  - unfold rsum. simpl. lra.
  - rewrite rsum_cons. lra.
Qed.

Lemma rsum_zeros (l : list R) : Forall (fun x => x = 0) l -> rsum l = 0.
Proof.
  induction 1 as [|x l Hx _ IH].
  - reflexivity.
  - rewrite rsum_cons, Hx, IH. lra.
Qed.

Lemma mean_nonneg (s : R) (n : nat) :
  n <> 0%nat -> 0 <= s -> 0 <= s / INR n.
Proof.
  intros Hn Hs. apply Rmult_le_pos; [exact Hs|].
  apply Rlt_le, Rinv_0_lt_compat, lt_0_INR. lia.
Qed.

Lemma tensor_error_unfold {T} `{TensorLaws T} (self : Evaluator) (a b : T)
    (e : R) :
  _calc_tensor_error self a b = Ok e ->
  exists d, tsub a b = Ok d /\
            e = rsum (map (fun x => x ^ 2) (flat d))
                / INR (List.length (flat d)).
Proof.
  unfold _calc_tensor_error, to. intros He.
  apply rbind_Ok in He as (d & Hd & [= <-]). exists d. split; [exact Hd|].
  unfold tmean, tpow2. by rewrite flat_tmap, length_map.
Qed.

Lemma tensor_error_ge_0 {T} `{TensorLaws T} (self : Evaluator) (a b : T)
    (e : R) :
  nonempty_difference a b -> _calc_tensor_error self a b = Ok e -> 0 <= e.
Proof.
  intros Hne He. apply tensor_error_unfold in He as (d & Hd & ->).
  unfold nonempty_difference in Hne. rewrite Hd in Hne.
  apply mean_nonneg; [by destruct (flat d)|].
  apply rsum_nonneg, Forall_fmap, Forall_forall.
  intros x _. simpl. apply pow2_ge_0.
Qed.

(** X1: the tensor error of two tensors (of any rank) whose difference
    has at least one element is, whenever it is defined, not negative. *)
Theorem tensor_error_nonneg {T} `{TensorLaws T} (self : Evaluator) (a b : T)
    (e : R) :
  nonempty_difference a b -> _calc_tensor_error self a b = Ok e -> 0 <= e.
Proof.
  intros Hne He. apply tensor_error_unfold in He as (d & Hd & ->).
  unfold nonempty_difference in Hne. rewrite Hd in Hne.
  assert (Hlen : 0 < INR (List.length (flat d))).
  { apply lt_0_INR. destruct (flat d); [done | simpl; lia]. }
  apply Rmult_le_pos; [|by apply Rlt_le, Rinv_0_lt_compat].
  apply rsum_nonneg, Forall_fmap, Forall_forall.
  intros x _. simpl. nra.
Qed.

Lemma tensor_error_nonneg_witness :
  nonempty_difference (unit_attention 1) (unit_attention 3) /\
  _calc_tensor_error two_token_evaluator (unit_attention 1) (unit_attention 3)
  = Ok 4 /\ 0 <= 4.
Proof.
  assert (Hne : nonempty_difference (unit_attention 1) (unit_attention 3))
    by discriminate.
  assert (H : _calc_tensor_error two_token_evaluator
                (unit_attention 1) (unit_attention 3) = Ok 4)
    by (run_code; f_equal; lra).
  split; [exact Hne|]. split; [exact H|].
  exact (tensor_error_nonneg two_token_evaluator _ _ _ Hne H).
Defined.

(** X2: the tensor error of a non-empty tensor (of any rank) with itself
    is defined and is 0. *)
Theorem tensor_error_self_zero {T} `{TensorLaws T} (self : Evaluator) (a : T) :
  flat a <> [] -> _calc_tensor_error self a a = Ok 0.
Proof.
  intros Hne. unfold _calc_tensor_error, to.
  destruct (tsub_self a) as (d & Hd & Hflat). rewrite Hd. simpl. f_equal.
  unfold tmean, tpow2. rewrite flat_tmap, Hflat, map_map, !length_map.
  rewrite rsum_zeros.
  - unfold Rdiv. ring.
  - apply Forall_fmap, Forall_forall. intros x _. simpl. ring.
Qed.

Lemma tensor_error_self_zero_witness :
  flat (unit_attention 3) <> [] /\
  _calc_tensor_error two_token_evaluator (unit_attention 3) (unit_attention 3)
  = Ok 0.
Proof.
  assert (H : flat (unit_attention 3) <> []) by discriminate.
  split; [exact H|].
  exact (tensor_error_self_zero two_token_evaluator (unit_attention 3) H).
Defined.

(** X3: the tensor error does not depend on the order of its operands. *)
Theorem tensor_error_symmetric {T} `{TensorLaws T} (self : Evaluator) (a b : T)
    (e : R) :
  _calc_tensor_error self a b = Ok e -> _calc_tensor_error self b a = Ok e.
Proof.
  intros He. apply tensor_error_unfold in He as (d & Hd & ->).
  destruct (tsub_swap _ _ _ Hd) as (d' & Hd' & Hflat).
  unfold _calc_tensor_error, to. rewrite Hd'. simpl. f_equal.
  unfold tmean, tpow2. rewrite flat_tmap, Hflat, map_map, !length_map.
  f_equal. f_equal. apply map_ext. intros x. ring.
Qed.

Lemma tensor_error_symmetric_witness :
  _calc_tensor_error two_token_evaluator (unit_attention 1) (unit_attention 3)
  = Ok 4 /\
  _calc_tensor_error two_token_evaluator (unit_attention 3) (unit_attention 1)
  = Ok 4.
Proof.
  assert (H : _calc_tensor_error two_token_evaluator
                (unit_attention 1) (unit_attention 3) = Ok 4)
    by (run_code; f_equal; lra).
  split; [exact H|].
  exact (tensor_error_symmetric two_token_evaluator _ _ _ H).
Defined.

(** X4: with an empty first sequence the attention error raises
    [ZeroDivisionError], whatever the second sequence is; with a non-empty
    first and an empty second sequence nothing is compared and the result
    is 0. *)
Theorem attention_error_of_empty_sequences (self : Evaluator)
    (attn : Tensor4) (attention1 attention2 : AttentionType) :
  _calc_attention_error self [] attention2 = Err ZeroDivisionError /\
  _calc_attention_error self (attn :: attention1) [] = Ok 0.
Proof.
  split; [reflexivity|].
  unfold _calc_attention_error. simpl combine. simpl mapM. simpl rbind.
  rewrite py_div_int_Ok by discriminate. f_equal.
  unfold rsum, Rdiv. simpl fold_left. ring.
Qed.

Lemma attention_error_ge_0 (self : Evaluator)
    (attention1 attention2 : AttentionType) (e : R) :
  Forall (fun p : Tensor4 * Tensor4 => nonempty_difference p.1 p.2)
         (combine attention1 attention2) ->
  _calc_attention_error self attention1 attention2 = Ok e -> 0 <= e.
Proof.
  unfold _calc_attention_error. intros Hne He.
  apply rbind_Ok in He as (errs & Herrs & He).
  unfold py_div_int in He.
  destruct (Nat.eqb_spec (List.length attention1) 0) as [|Hlen];
    [discriminate|].
  injection He as <-. apply mean_nonneg; [exact Hlen|]. apply rsum_nonneg.
  apply mapM_Forall2 in Herrs.
  revert Hne. induction Herrs as [|[a b] x ps xs Hx _ IH]; intros Hne;
    [constructor|].
  inversion Hne as [|? ? Hab Hps]; subst.
  constructor; [|by apply IH].
  by apply (tensor_error_ge_0 self a b).
Qed.

(** ** One question: the run behind a result *)

Lemma ebind_Ok {A B} (m : Eff A) (k : A -> Eff B) (b : B) (evs : list event) :
  ebind m k = (Ok b, evs) ->
  exists a e1 e2, m = (Ok a, e1) /\ k a = (Ok b, e2) /\ evs = e1 ++ e2.
Proof.
  unfold ebind. destruct m as [[a|e] e1]; [|discriminate].
  destruct (k a) as [r e2] eqn:Hk. intros [= -> <-]. by exists a, e1, e2.
Qed.

Lemma ebind_eq {A B} (m : Eff A) (k : A -> Eff B) (a : A) (r : result B)
    (e1 e2 : list event) :
  m = (Ok a, e1) -> k a = (r, e2) -> ebind m k = (r, e1 ++ e2).
Proof. intros -> Hk. unfold ebind. by rewrite Hk. Qed.

Lemma lift_Ok {A} (m : result A) (a : A) (evs : list event) :
  lift m = (Ok a, evs) -> m = Ok a /\ evs = [].
Proof. unfold lift. by intros [= -> <-]. Qed.

Lemma model_forward_Ok (self : Evaluator) ids past (out : Model.output)
    (evs : list event) :
  model_forward self ids past = (Ok out, evs) ->
  Model.forward (model self) ids past = Ok out /\ evs = [EvForward].
Proof.
  unfold model_forward, emit, lift, ebind. simpl.
  by intros [= -> <-].
Qed.

Lemma model_forward_eq (self : Evaluator) ids past (out : result Model.output) :
  Model.forward (model self) ids past = out ->
  model_forward self ids past = (out, [EvForward]).
Proof. intros <-. reflexivity. Qed.

Ltac step_run H x Hx :=
  let e1 := fresh "e" in
  let e2 := fresh "e" in
  let He := fresh "He" in
  apply ebind_Ok in H as (x & e1 & e2 & Hx & H & He);
  first [ apply lift_Ok in Hx as [Hx ->]
        | apply model_forward_Ok in Hx as [Hx ->]
        | idtac ];
  simpl app in He; subst.

Lemma _evaluate_single_run (self : Evaluator) (idx : nat) (q : Question.t)
    (r : EvaluationResult) (evs : list event) :
  _evaluate_single self idx q = (Ok r, evs) ->
  exists (t : single_run) (devs : list event),
    single_steps self q t /\
    diagnostics self idx (run_key_cache t) (run_quantized_key_cache t)
      (run_value_cache t) (run_quantized_value_cache t) = (Ok tt, devs) /\
    r = single_record q t /\
    evs = EvForward :: devs ++ [EvForward].
Proof.
  unfold _evaluate_single, to. intros H.
  step_run H res Hres. step_run H kc Hkc. step_run H vc Hvc.
  step_run H qk Hqk. destruct qk as [qkc kbits].
  step_run H qv Hqv. destruct qv as [qvc vbits].
  step_run H u Hu. destruct u.
  step_run H qres Hqres. step_run H fl Hfl.
  step_run H st Hst. destruct st as [[mx mi] alp].
  step_run H ke Hke. step_run H ve Hve. step_run H ae Hae.
  step_run H lge Hlge. step_run H ks Hks. step_run H vs Hvs.
  injection H as <- <-.
  exists {| run_res := res; run_key_cache := kc; run_value_cache := vc;
            run_quantized_key_cache := qkc; run_key_average_n_bits := kbits;
            run_quantized_value_cache := qvc;
            run_value_average_n_bits := vbits; run_quantized_res := qres;
            run_last_prefix_logits := fl; run_scan := (mx, mi, alp);
            run_key_quantization_error := ke;
            run_value_quantization_error := ve;
            run_attention_error := ae; run_logit_error := lge;
            run_key_average_size := ks; run_value_average_size := vs |}.
  eexists. split; [|split; [exact Hu|split; [reflexivity|]]].
  - unfold single_steps. simpl. repeat split; assumption.
  - reflexivity.
Qed.

Lemma ebind_lift_Ok {A B} (m : result A) (k : A -> Eff B) (a : A) :
  m = Ok a -> ebind (lift m) k = k a.
Proof. intros ->. unfold ebind, lift. by destruct (k a). Qed.

Lemma ebind_forward {B} (self : Evaluator) ids past (out : Model.output)
    (k : Model.output -> Eff B) :
  Model.forward (model self) ids past = Ok out ->
  ebind (model_forward self ids past) k
  = (let '(r, e) := k out in (r, EvForward :: e)).
Proof.
  intros H. unfold model_forward, emit, lift, ebind. simpl. rewrite H.
  by destruct (k out).
Qed.

Lemma ebind_run {A B} (m : Eff A) (k : A -> Eff B) (a : A) (e1 : list event) :
  m = (Ok a, e1) ->
  ebind m k = (let '(r, e) := k a in (r, e1 ++ e)).
Proof. intros ->. reflexivity. Qed.

Lemma _evaluate_single_of_run (self : Evaluator) (idx : nat) (q : Question.t)
    (t : single_run) (devs : list event) :
  single_steps self q t ->
  diagnostics self idx (run_key_cache t) (run_quantized_key_cache t)
    (run_value_cache t) (run_quantized_value_cache t) = (Ok tt, devs) ->
  _evaluate_single self idx q
  = (Ok (single_record q t), EvForward :: devs ++ [EvForward]).
Proof.
  intros (H1 & H2 & H3 & H4 & H5 & H6 & H7 & H8 & H9 & H10 & H11 & H12
          & H13 & H14) Hd.
  unfold _evaluate_single, to.
  rewrite (ebind_forward _ _ _ _ _ H1).
  rewrite (ebind_lift_Ok _ _ _ H2), (ebind_lift_Ok _ _ _ H3).
  rewrite (ebind_lift_Ok _ _ _ H4). cbv beta iota.
  rewrite (ebind_lift_Ok _ _ _ H5). cbv beta iota.
  unfold diagnostics in Hd. rewrite (ebind_run _ _ _ _ Hd).
  rewrite (ebind_forward _ _ _ _ _ H6).
  rewrite (ebind_lift_Ok _ _ _ H7), (ebind_lift_Ok _ _ _ H8).
  destruct (run_scan t) as [[mx mi] alp] eqn:Hscan. cbv beta iota.
  rewrite (ebind_lift_Ok _ _ _ H9), (ebind_lift_Ok _ _ _ H10),
    (ebind_lift_Ok _ _ _ H11), (ebind_lift_Ok _ _ _ H12),
    (ebind_lift_Ok _ _ _ H13), (ebind_lift_Ok _ _ _ H14).
  unfold eret, single_record. rewrite Hscan. simpl. reflexivity.
Qed.

Lemma value_Ok_run {A} (m : Eff A) (a : A) :
  value m = Ok a -> m = (Ok a, events m).
Proof. intros H. rewrite (eff_eta m) at 1. by rewrite H. Qed.

(** X5: in every result of a single-question evaluation the confidence is
    0, the accuracy is 0 or 1, and [quantization_error], [average_n_bits]
    and [average_size] are the means of their key and value parts. *)
Theorem single_result_is_consistent (self : Evaluator) (idx : nat)
    (q : Question.t) (r : EvaluationResult) :
  value (_evaluate_single self idx q) = Ok r ->
  accuracy_confidence r = 0 /\
  (accuracy r = 0 \/ accuracy r = 1) /\
  quantization_error r
  = (key_quantization_error r + value_quantization_error r) / 2 /\
  average_n_bits r = (key_average_n_bits r + value_average_n_bits r) / 2 /\
  average_size r = (key_average_size r + value_average_size r) / 2.
Proof.
  intros H. apply value_Ok_run, _evaluate_single_run in H
    as (t & devs & _ & _ & -> & _).
  simpl. repeat split. apply hit_01.
Qed.

Lemma single_result_is_consistent_witness :
  value (_evaluate_single two_token_evaluator 0 two_token_question)
  = Ok two_token_result /\
  accuracy_confidence two_token_result = 0 /\
  (accuracy two_token_result = 0 \/ accuracy two_token_result = 1) /\
  quantization_error two_token_result
  = (key_quantization_error two_token_result
     + value_quantization_error two_token_result) / 2 /\
  average_n_bits two_token_result
  = (key_average_n_bits two_token_result
     + value_average_n_bits two_token_result) / 2 /\
  average_size two_token_result
  = (key_average_size two_token_result
     + value_average_size two_token_result) / 2.
Proof.
  assert (H : value (_evaluate_single two_token_evaluator 0 two_token_question)
              = Ok two_token_result) by reflexivity.
  split; [exact H|].
  exact (single_result_is_consistent _ _ _ _ H).
Defined.

Lemma run_errors_ge_0 (self : Evaluator) (q : Question.t) (t : single_run) :
  single_steps self q t ->
  measured_on_elements q t ->
  0 <= run_key_quantization_error t /\
  0 <= run_value_quantization_error t /\
  0 <= run_attention_error t /\
  0 <= run_logit_error t.
Proof.
  intros Hsteps (Nk & Nv & Na & Nl).
  destruct Hsteps as (_ & _ & _ & _ & _ & _ & _ & _ & Hk & Hv & Ha & Hl & _).
  apply tensor_error_ge_0 in Hk; [|exact Nk].
  apply tensor_error_ge_0 in Hv; [|exact Nv].
  apply tensor_error_ge_0 in Hl; [|exact Nl].
  apply attention_error_ge_0 in Ha; [|exact Na].
  by repeat split.
Qed.

(** X6: in every result of a single-question evaluation whose four error
    metrics are each taken over at least one element, these metrics and
    the combined quantization error are not negative. *)
Theorem single_result_errors_nonneg (self : Evaluator) (idx : nat)
    (q : Question.t) (r : EvaluationResult) :
  value (_evaluate_single self idx q) = Ok r ->
  (forall t, single_steps self q t -> measured_on_elements q t) ->
  0 <= key_quantization_error r /\
  0 <= value_quantization_error r /\
  0 <= quantization_error r /\
  0 <= attention_error r /\
  0 <= logit_error r.
Proof.
  intros H Hne. apply value_Ok_run, _evaluate_single_run in H
    as (t & devs & Hsteps & _ & -> & _).
  destruct (run_errors_ge_0 self q t Hsteps (Hne t Hsteps))
    as (Hk & Hv & Ha & Hl).
  simpl. repeat split; lra.
Qed.

Ltac run_code_in H :=
  lazy -[Rplus Rminus Rmult Rdiv Rinv Ropp IZR ln exp pow sqrt Rgt_dec Rlt_dec]
    in H.

(** On the toy model the tensors a run compares are read off its steps. *)
Ltac measure_toy_run t :=
  let H1 := fresh "H" in let H2 := fresh "H" in let H3 := fresh "H" in
  let H4 := fresh "H" in let H5 := fresh "H" in let H6 := fresh "H" in
  destruct t as [res kc vc qkc kb qvc vb qres fl sc ke ve ae le ks vs];
  unfold single_steps, measured_on_elements;
  cbn [run_res run_key_cache run_value_cache run_quantized_key_cache
       run_key_average_n_bits run_quantized_value_cache
       run_value_average_n_bits run_quantized_res run_last_prefix_logits
       run_scan run_key_quantization_error run_value_quantization_error
       run_attention_error run_logit_error run_key_average_size
       run_value_average_size];
  intros (H1 & H2 & H3 & H4 & H5 & H6 & _);
  run_code_in H1; injection H1 as <-;
  run_code_in H2; injection H2 as <-;
  run_code_in H3; injection H3 as <-;
  run_code_in H4; injection H4 as <- _;
  run_code_in H5; injection H5 as <- _;
  run_code_in H6; injection H6 as <-;
  repeat split; try (repeat constructor); discriminate.

Lemma two_token_run_measured (t : single_run) :
  single_steps two_token_evaluator two_token_question t ->
  measured_on_elements two_token_question t.
Proof. measure_toy_run t. Qed.

Lemma single_result_errors_nonneg_witness :
  value (_evaluate_single two_token_evaluator 0 two_token_question)
  = Ok two_token_result /\
  (forall t, single_steps two_token_evaluator two_token_question t ->
             measured_on_elements two_token_question t) /\
  0 <= key_quantization_error two_token_result /\
  0 <= value_quantization_error two_token_result /\
  0 <= quantization_error two_token_result /\
  0 <= attention_error two_token_result /\
  0 <= logit_error two_token_result.
Proof.
  assert (H : value (_evaluate_single two_token_evaluator 0 two_token_question)
              = Ok two_token_result) by reflexivity.
  split; [exact H|]. split; [exact two_token_run_measured|].
  exact (single_result_errors_nonneg _ _ _ _ H two_token_run_measured).
Defined.

Lemma choice_score_bounds (first : list (list R)) (quant : list (list (list R)))
    (ids : list (list Z)) (qlen c L : nat) (s : R) :
  choice_score first quant ids qlen c L = Ok s ->
  (1 <= L)%nat /\
  exists row, ids !! c = Some row /\ (qlen < List.length row)%nat.
Proof.
  unfold choice_score. intros H.
  apply rbind_Ok in H as (t0 & Ht0 & H).
  apply rbind_Ok in Ht0 as (row & Hrow & Ht0).
  apply py_index_nat in Hrow. apply py_index_nat, lookup_lt_Some in Ht0.
  apply rbind_Ok in H as (fst_lp & _ & H).
  apply rbind_Ok in H as (js & Hjs & _).
  apply arange_Ok in Hjs as [HL _].
  split; [exact HL|]. by exists row.
Qed.

(** X7: a single-question evaluation returns only if every listed choice
    has a continuation of at least one token and a row of [input_ids] that
    reaches beyond the prefix; a zero-length choice, or more choices than
    rows, makes it fail. *)
Theorem single_evaluation_needs_every_choice (self : Evaluator) (idx : nat)
    (q : Question.t) (r : EvaluationResult) :
  value (_evaluate_single self idx q) = Ok r ->
  forall c L,
    Question.choice_length q !! c = Some L ->
    (1 <= L)%nat /\
    exists row, Question.input_ids q !! c = Some row /\
                (Question.question_length q < List.length row)%nat.
Proof.
  intros H c L HL.
  apply _evaluate_single_scores in H
    as (res & qres & scores & mx & mi & Hcs & _).
  destruct Hcs as (kc & vc & qkc & kbits & qvc & vbits & fl
                   & _ & _ & _ & _ & _ & _ & _ & H4).
  pose proof (lookup_enumerate _ _ _ HL) as He.
  destruct (Forall2_lookup_l _ _ _ _ _ H4 He) as (s & _ & Hcode).
  by apply choice_score_bounds in Hcode.
Qed.

Lemma single_evaluation_needs_every_choice_witness :
  value (_evaluate_single two_token_evaluator 0 two_token_question)
  = Ok two_token_result /\
  Question.choice_length two_token_question !! 0%nat = Some 2%nat /\
  (1 <= 2)%nat /\
  exists row, Question.input_ids two_token_question !! 0%nat = Some row /\
              (Question.question_length two_token_question
               < List.length row)%nat.
Proof.
  assert (H : value (_evaluate_single two_token_evaluator 0 two_token_question)
              = Ok two_token_result) by reflexivity.
  split; [exact H|]. split; [reflexivity|].
  exact (single_evaluation_needs_every_choice _ _ _ _ H 0%nat 2%nat eq_refl).
Defined.

(** X8: the diagnostics are observational: a result returned with them
    enabled is the result of the same evaluation with them disabled, for
    every position of the question in the corpus. *)
Theorem diagnostics_do_not_change_the_result (self : Evaluator) (idx idx' : nat)
    (q : Question.t) (r : EvaluationResult) :
  value (_evaluate_single self idx q) = Ok r ->
  value (_evaluate_single (without_diagnostics self) idx' q) = Ok r.
Proof.
  intros H. apply value_Ok_run, _evaluate_single_run in H
    as (t & devs & Hsteps & _ & -> & _).
  rewrite (_evaluate_single_of_run (without_diagnostics self) idx' q t []).
  - reflexivity.
  - exact Hsteps.
  - reflexivity.
Qed.

Lemma diagnostics_do_not_change_the_result_witness :
  value (_evaluate_single drawing_evaluator 0 two_token_question)
  = Ok two_token_result /\
  value (_evaluate_single (without_diagnostics drawing_evaluator) 7
           two_token_question) = Ok two_token_result.
Proof.
  assert (H : value (_evaluate_single drawing_evaluator 0 two_token_question)
              = Ok two_token_result) by reflexivity.
  split; [exact H|].
  exact (diagnostics_do_not_change_the_result _ 0%nat 7%nat _ _ H).
Defined.

(** ** Diagnostics: what a completed rendering has done *)

Lemma each_cache_events (f : string * Tensor5 -> Eff unit)
    (g : string * Tensor5 -> list event) (caches : list (string * Tensor5))
    (u : unit) (evs : list event) :
  (forall c u' e, f c = (Ok u', e) -> e = g c) ->
  each_cache f caches = (Ok u, evs) -> evs = flat_map g caches.
Proof.
  intros Hf. revert evs. induction caches as [|c cs IH]; intros evs; simpl.
  - by intros [= <-].
  - intros H. apply ebind_Ok in H as (u' & e1 & e2 & H1 & H2 & ->).
    by rewrite (Hf _ _ _ H1), (IH _ H2).
Qed.

Lemma flat_map_singleton {A B} (g : A -> B) (l : list A) :
  flat_map (fun a => [g a]) l = map g l.
Proof. induction l; simpl; congruence. Qed.

Lemma py_assert_Ok (b : bool) (u : unit) : py_assert b = Ok u -> b = true.
Proof. by destruct b. Qed.

Lemma draw_cache_insights_Ok (self : Evaluator)
    (caches : list (string * Tensor5)) (u : unit) (evs : list event) :
  draw_cache_insights self caches = (Ok u, evs) ->
  Quantizer.level (key_quantizer self) = "token"%string /\
  Quantizer.level (value_quantizer self) = "token"%string /\
  evs = rendering caches.
Proof.
  unfold draw_cache_insights. intros H.
  apply ebind_Ok in H as (u1 & e1 & e2 & H1 & H & ->).
  apply lift_Ok in H1 as [H1 ->]. apply py_assert_Ok, String.eqb_eq in H1.
  apply ebind_Ok in H as (u2 & e3 & e4 & H2 & H & ->).
  apply lift_Ok in H2 as [H2 ->]. apply py_assert_Ok, String.eqb_eq in H2.
  split; [exact H1|]. split; [exact H2|].
  apply ebind_Ok in H as (u3 & e5 & e6 & H3 & H & ->).
  apply (each_cache_events _ (fun c => [EvPlot c.1])) in H3.
  2:{ intros [name cache] u' e Hc.
      apply ebind_Ok in Hc as (x & e7 & e8 & Hx & Hc & ->).
      apply lift_Ok in Hx as [_ ->]. by injection Hc as _ <-. }
  apply ebind_Ok in H as (u4 & e7 & e8 & H4 & H & ->). injection H4 as _ <-.
  apply ebind_Ok in H as (u5 & e9 & e10 & H5 & H & ->). injection H5 as _ <-.
  apply ebind_Ok in H as (u6 & e11 & e12 & H6 & H & ->).
  apply (each_cache_events _ (fun c => [EvPrint c.1; EvPlot c.1])) in H6.
  2:{ intros [name cache] u' e Hc.
      apply ebind_Ok in Hc as (x & e13 & e14 & Hx & Hc & ->).
      apply lift_Ok in Hx as [_ ->].
      apply ebind_Ok in Hc as (y & e15 & e16 & Hy & Hc & ->).
      apply lift_Ok in Hy as [_ ->].
      apply ebind_Ok in Hc as (z & e17 & e18 & Hz & Hc & ->).
      injection Hz as _ <-. by injection Hc as _ <-. }
  injection H as _ <-. subst e5 e11.
  unfold rendering. rewrite flat_map_singleton. simpl. reflexivity.
Qed.

Lemma forward_calls_app (e1 e2 : list event) :
  forward_calls (e1 ++ e2) = (forward_calls e1 + forward_calls e2)%nat.
Proof. unfold forward_calls. by rewrite List.filter_app, length_app. Qed.

Lemma forward_calls_rendering (caches : list (string * Tensor5)) :
  forward_calls (rendering caches) = 0%nat.
Proof.
  unfold rendering. rewrite !forward_calls_app.
  assert (H1 : forward_calls (map (fun c : string * Tensor5 => EvPlot c.1) caches)
               = 0%nat) by (induction caches; simpl; auto).
  assert (H2 : forward_calls
                 (flat_map (fun c : string * Tensor5 =>
                              [EvPrint c.1; EvPlot c.1]) caches) = 0%nat)
    by (induction caches; simpl; auto).
  rewrite H1, H2. reflexivity.
Qed.

(** X9: a rendering that returns has passed both level assertions and has
    produced, in this order: one line series per cache, the figure
    [figs/cache_std.png], the header line, one summary line and one
    histogram per cache, and the figure [figs/cache_distribution.png]; it
    has not called the model. *)
Theorem completed_rendering (self : Evaluator)
    (caches : list (string * Tensor5)) (u : unit) (evs : list event) :
  draw_cache_insights self caches = (Ok u, evs) ->
  Quantizer.level (key_quantizer self) = "token"%string /\
  Quantizer.level (value_quantizer self) = "token"%string /\
  evs = rendering caches /\
  forward_calls evs = 0%nat.
Proof.
  intros H. apply draw_cache_insights_Ok in H as (Hk & Hv & ->).
  split; [exact Hk|]. split; [exact Hv|]. split; [reflexivity|].
  apply forward_calls_rendering.
Qed.

Lemma completed_rendering_witness :
  draw_cache_insights drawing_evaluator [("Key cache"%string, small_cache)]
  = (Ok tt, rendering [("Key cache"%string, small_cache)]) /\
  Quantizer.level (key_quantizer drawing_evaluator) = "token"%string.
Proof.
  assert (H : draw_cache_insights drawing_evaluator
                [("Key cache"%string, small_cache)]
              = (Ok tt, rendering [("Key cache"%string, small_cache)]))
    by reflexivity.
  split; [exact H|].
  exact (proj1 (completed_rendering _ _ _ _ H)).
Defined.

Lemma diagnostics_events (self : Evaluator) (idx : nat)
    (kc qkc vc qvc : Tensor5) (u : unit) (devs : list event) :
  diagnostics self idx kc qkc vc qvc = (Ok u, devs) ->
  forward_calls devs = 0%nat /\
  (enable_draw_cache_insights self = false \/ idx <> 0%nat -> devs = []).
Proof.
  unfold diagnostics. intros H.
  destruct (enable_draw_cache_insights self) eqn:Hen;
    [destruct (Nat.eqb_spec idx 0) as [->|Hidx]|]; simpl in H.
  - apply draw_cache_insights_Ok in H as (_ & _ & ->).
    split; [apply forward_calls_rendering|]. intros [?|?]; done.
  - injection H as _ <-. by split.
  - injection H as _ <-. by split.
Qed.

Lemma single_forward_calls (self : Evaluator) (idx : nat) (q : Question.t)
    (r : EvaluationResult) (evs : list event) :
  _evaluate_single self idx q = (Ok r, evs) -> forward_calls evs = 2%nat.
Proof.
  intros H. apply _evaluate_single_run in H as (t & devs & _ & Hd & _ & ->).
  apply diagnostics_events in Hd as [Hd _].
  change (EvForward :: devs ++ [EvForward])
    with ([EvForward] ++ devs ++ [EvForward]).
  rewrite !forward_calls_app, Hd. reflexivity.
Qed.

(** X10: a single-question evaluation that returns has called the model
    exactly twice, with or without diagnostics. *)
Theorem single_evaluation_calls_model_twice (self : Evaluator) (idx : nat)
    (q : Question.t) (r : EvaluationResult) (evs : list event) :
  _evaluate_single self idx q = (Ok r, evs) -> forward_calls evs = 2%nat.
Proof.
  intros H. apply _evaluate_single_run in H as (t & devs & _ & Hd & _ & ->).
  apply diagnostics_events in Hd as [Hd _].
  change (EvForward :: devs ++ [EvForward])
    with ([EvForward] ++ devs ++ [EvForward]).
  rewrite !forward_calls_app, Hd. reflexivity.
Qed.

Lemma single_evaluation_calls_model_twice_witness :
  _evaluate_single drawing_evaluator 0 two_token_question
  = (Ok two_token_result,
     events (_evaluate_single drawing_evaluator 0 two_token_question)) /\
  forward_calls
    (events (_evaluate_single drawing_evaluator 0 two_token_question))
  = 2%nat.
Proof.
  assert (H : _evaluate_single drawing_evaluator 0 two_token_question
              = (Ok two_token_result,
                 events (_evaluate_single drawing_evaluator 0
                           two_token_question))) by reflexivity.
  split; [exact H|].
  exact (single_evaluation_calls_model_twice _ _ _ _ _ H).
Defined.

(** X11: the diagnostics belong to the first question only: when they are
    disabled, or the question is not the first one, an evaluation that
    returns has done nothing but its two model calls. *)
Theorem no_diagnostics_beyond_first_question (self : Evaluator) (idx : nat)
    (q : Question.t) (r : EvaluationResult) (evs : list event) :
  enable_draw_cache_insights self = false \/ idx <> 0%nat ->
  _evaluate_single self idx q = (Ok r, evs) ->
  evs = [EvForward; EvForward].
Proof.
  intros Hoff H. apply _evaluate_single_run in H as (t & devs & _ & Hd & _ & ->).
  apply diagnostics_events in Hd as [_ Hd]. by rewrite (Hd Hoff).
Qed.

Lemma no_diagnostics_beyond_first_question_witness :
  (enable_draw_cache_insights drawing_evaluator = false \/ 1%nat <> 0%nat) /\
  value (_evaluate_single drawing_evaluator 1 two_token_question)
  = Ok two_token_result /\
  events (_evaluate_single drawing_evaluator 1 two_token_question)
  = [EvForward; EvForward].
Proof.
  assert (Hoff : enable_draw_cache_insights drawing_evaluator = false
                 \/ 1%nat <> 0%nat) by (right; discriminate).
  split; [exact Hoff|]. split; [reflexivity|].
  assert (H : _evaluate_single drawing_evaluator 1 two_token_question
              = (Ok two_token_result,
                 events (_evaluate_single drawing_evaluator 1
                           two_token_question))) by reflexivity.
  exact (no_diagnostics_beyond_first_question _ _ _ _ _ Hoff H).
Defined.

(** ** Diagnostics: the prefix they need *)

Lemma stack_Ok {T} `{Tensor T} (l l' : list T) : stack l = Ok l' -> l' = l.
Proof.
  unfold stack. destruct l as [|t ts]; [discriminate|].
  destruct (forallb _ ts); [|discriminate]. by intros [= <-].
Qed.

Lemma sliced_cache_positions (n : nat) (pick : Tensor4 * Tensor4 -> Tensor4)
    (pkv : list (Tensor4 * Tensor4)) :
  at_most_positions n
    (map (fun kv => slice4 (firstn n) all_ (pick kv)) pkv).
Proof.
  unfold at_most_positions, slice4.
  apply Forall_fmap, Forall_forall. intros kv _. simpl.
  apply Forall_fmap, Forall_forall. intros item _. simpl.
  apply Forall_fmap, Forall_forall. intros head _. simpl.
  rewrite length_map. apply firstn_le_length.
Qed.

Lemma second_token_values_short (cache : Tensor5) (values : list R) :
  at_most_positions 1 cache ->
  second_token_values cache = Ok values -> values = [].
Proof.
  unfold second_token_values. intros Hshort H.
  apply rbind_Ok in H as (sel & Hsel & [= <-]).
  apply mapM_Forall2 in Hsel.
  assert (Hempty : Forall (fun s : list (list R) => s = []) sel).
  { eapply Forall2_Forall_r; [exact Hsel|].
    eapply Forall_impl; [exact Hshort|].
    intros layer Hlayer s Hs. simpl in Hs.
    apply rbind_Ok in Hs as (item & Hitem & Hs).
    apply py_index_nat with (i := 0%nat) in Hitem.
    apply mapM_Forall2 in Hs.
    destruct item as [|head item]; [by inversion Hs|].
    exfalso. inversion Hs as [|? r0 ? rs Hhead _]; subst.
    apply py_index_nat with (i := 1%nat), lookup_lt_Some in Hhead.
    assert (Hin : Forall (fun head : list (list R) =>
                            (List.length head <= 1)%nat) (head :: item)).
    { eapply Forall_lookup_1 in Hlayer; [exact Hlayer | exact Hitem]. }
    inversion Hin; subst. lia. }
  clear Hsel. simpl. induction Hempty as [|s sel -> _ IH]; [reflexivity|].
  simpl. exact IH.
Qed.

Lemma rendering_needs_second_token (self : Evaluator) (name : string)
    (cache : Tensor5) (rest : list (string * Tensor5)) (u : unit)
    (evs : list event) :
  draw_cache_insights self ((name, cache) :: rest) = (Ok u, evs) ->
  exists values, second_token_values cache = Ok values /\ values <> [].
Proof.
  unfold draw_cache_insights. intros H.
  apply ebind_Ok in H as (u1 & e1 & e2 & _ & H & _).
  apply ebind_Ok in H as (u2 & e3 & e4 & _ & H & _).
  apply ebind_Ok in H as (u3 & e5 & e6 & _ & H & _).
  apply ebind_Ok in H as (u4 & e7 & e8 & _ & H & _).
  apply ebind_Ok in H as (u5 & e9 & e10 & _ & H & _).
  apply ebind_Ok in H as (u6 & e11 & e12 & H6 & _ & _).
  simpl in H6.
  apply ebind_Ok in H6 as (u7 & e13 & e14 & Hc & _ & _).
  destruct (second_token_values cache) as [values|e'] eqn:Hv;
    [|discriminate Hc].
  exists values. split; [reflexivity|]. by destruct values.
Qed.

(** X12: the diagnostics read token position 1 of the prefix-restricted
    key cache, so with diagnostics enabled the first question never
    returns a result when its prefix has fewer than two tokens. *)
Theorem diagnostics_need_two_prefix_tokens (self : Evaluator) (q : Question.t)
    (r : EvaluationResult) :
  enable_draw_cache_insights self = true ->
  (Question.question_length q <= 1)%nat ->
  value (_evaluate_single self 0 q) <> Ok r.
Proof.
  intros Hen Hq H. apply value_Ok_run, _evaluate_single_run in H
    as (t & devs & Hsteps & Hd & _ & _).
  destruct Hsteps as (_ & Hkc & _).
  unfold diagnostics in Hd. rewrite Hen in Hd. simpl in Hd.
  apply rendering_needs_second_token in Hd as (values & Hv & Hne).
  apply Hne, (second_token_values_short (run_key_cache t)); [|exact Hv].
  apply stack_Ok in Hkc. rewrite Hkc.
  pose proof (sliced_cache_positions (Question.question_length q) fst
                (Model.past_key_values (run_res t))) as Hshort.
  assert (Heq : map (fun '(key, _) =>
                       slice4 (firstn (Question.question_length q)) all_ key)
                    (Model.past_key_values (run_res t))
                = map (fun kv : Tensor4 * Tensor4 =>
                         slice4 (firstn (Question.question_length q)) all_ kv.1)
                      (Model.past_key_values (run_res t))).
  { apply map_ext. by intros [key value]. }
  rewrite Heq. unfold at_most_positions in *.
  eapply Forall_impl; [exact Hshort|]. intros layer Hl.
  eapply Forall_impl; [exact Hl|]. intros item Hi.
  eapply Forall_impl; [exact Hi|]. intros head Hh. simpl in Hh. lia.
Qed.

Lemma diagnostics_need_two_prefix_tokens_witness :
  enable_draw_cache_insights drawing_evaluator = true /\
  (Question.question_length one_token_prefix_question <= 1)%nat /\
  value (_evaluate_single drawing_evaluator 0 one_token_prefix_question)
  <> Ok two_token_result /\
  value (_evaluate_single drawing_evaluator 0 one_token_prefix_question)
  = Err IndexError.
Proof.
  split; [reflexivity|]. split; [simpl; lia|]. split; [|reflexivity].
  apply (diagnostics_need_two_prefix_tokens drawing_evaluator
           one_token_prefix_question two_token_result).
  - reflexivity.
  - simpl. lia.
Defined.

(** ** Scores are log-probabilities *)

Lemma member_le_rsum (l : list R) (y : R) :
  Forall (fun x => 0 <= x) l -> In y l -> y <= rsum l.
Proof.
  induction 1 as [|x l Hx Hl IH]; intros Hin; [contradiction|].
  rewrite rsum_cons. pose proof (rsum_nonneg l Hl).
  destruct Hin as [->|Hin]; [lra|]. specialize (IH Hin). lra.
Qed.

Lemma rsum_nonpos (l : list R) : Forall (fun x => x <= 0) l -> rsum l <= 0.
Proof.
  induction 1 as [|x l Hx _ IH].
  - unfold rsum. simpl. lra.
  - rewrite rsum_cons. lra.
Qed.

Lemma log_softmax_row_nonpos (row : list R) (x : R) :
  In x (log_softmax_row row) -> x <= 0.
Proof.
  unfold log_softmax_row. intros Hin.
  apply in_map_iff in Hin as (y & <- & Hy).
  assert (Hle : exp y <= rsum (map exp row)).
  { apply member_le_rsum; [|by apply in_map].
    apply Forall_fmap, Forall_forall. intros z _. simpl.
    apply Rlt_le, exp_pos. }
  pose proof (exp_pos y) as Hpos.
  assert (Hln : ln (exp y) <= ln (rsum (map exp row))).
  { destruct Hle as [Hlt|<-]; [|lra].
    apply Rlt_le, ln_increasing; assumption. }
  rewrite ln_exp in Hln. lra.
Qed.

Lemma py_index_In {A} (l : list A) (i : Z) (a : A) :
  py_index l i = Ok a -> In a l.
Proof.
  unfold py_index. destruct (_ && _)%bool; [|discriminate].
  destruct (nth_error l _) as [a'|] eqn:E; [|discriminate].
  intros [= <-]. by eapply nth_error_In.
Qed.

Lemma choice_score_nonpos (fl : list (list R)) (quant : list (list (list R)))
    (ids : list (list Z)) (qlen c L : nat) (s : R) :
  choice_score (map log_softmax_row fl) (map (map log_softmax_row) quant)
               ids qlen c L = Ok s ->
  s <= 0.
Proof.
  unfold choice_score. intros H.
  apply rbind_Ok in H as (t0 & _ & H).
  apply rbind_Ok in H as (first & Hfirst & H).
  apply rbind_Ok in Hfirst as (frow & Hfrow & Hfirst).
  apply py_index_In, in_map_iff in Hfrow as (x & <- & _).
  apply py_index_In, log_softmax_row_nonpos in Hfirst.
  apply rbind_Ok in H as (js & _ & H).
  apply rbind_Ok in H as (row & _ & H).
  apply rbind_Ok in H as (pairs & _ & H).
  apply rbind_Ok in H as (lp & Hlp & H).
  apply py_index_In, in_map_iff in Hlp as (rows & <- & _).
  apply rbind_Ok in H as (picked & Hpicked & H).
  assert (Hneg : Forall (fun v => v <= 0) picked).
  { apply mapM_Forall2 in Hpicked.
    eapply Forall2_Forall_r; [exact Hpicked|].
    apply Forall_forall. intros [j t] _ v Hv.
    apply rbind_Ok in Hv as (r & Hr & Hv).
    apply py_index_In, in_map_iff in Hr as (y & <- & _).
    by apply py_index_In, log_softmax_row_nonpos in Hv. }
  apply rsum_nonpos in Hneg.
  unfold py_div_int in H.
  destruct (Nat.eqb_spec L 0) as [|HL]; [discriminate|].
  injection H as <-. unfold Rdiv.
  assert (Hinv : 0 < / INR L) by (apply Rinv_0_lt_compat, lt_0_INR; lia).
  set (i := / INR L) in *. set (p := rsum picked) in *.
  assert (Hprod : 0 <= (- (first + p)) * i) by (apply Rmult_le_pos; lra).
  lra.
Qed.

Lemma answer_lp_le_0 (self : Evaluator) (idx : nat) (q : Question.t)
    (r : EvaluationResult) (a : R) :
  value (_evaluate_single self idx q) = Ok r ->
  answer_log_probability r = Some a ->
  a <= 0.
Proof.
  intros H Ha.
  apply _evaluate_single_scores in H
    as (res & qres & scores & mx & mi & Hcs & [Halp _] & _).
  destruct Hcs as (kc & vc & qkc & kbits & qvc & vbits & fl
                   & _ & _ & _ & _ & _ & _ & _ & H4).
  rewrite Ha in Halp.
  destruct (decide _); [|discriminate]. symmetry in Halp.
  destruct (Forall2_lookup_r _ _ _ _ _ H4 Halp) as ([c L] & _ & Hscore).
  by apply choice_score_nonpos in Hscore.
Qed.

(** X13: every score is a mean of log-probabilities, so the
    [answer_log_probability] of a returned single-question result, when
    there is one, is not positive. *)
Theorem answer_log_probability_nonpos (self : Evaluator) (idx : nat)
    (q : Question.t) (r : EvaluationResult) (a : R) :
  value (_evaluate_single self idx q) = Ok r ->
  answer_log_probability r = Some a ->
  a <= 0.
Proof.
  intros H Ha.
  apply _evaluate_single_scores in H
    as (res & qres & scores & mx & mi & Hcs & [Halp _] & _).
  destruct Hcs as (kc & vc & qkc & kbits & qvc & vbits & fl
                   & _ & _ & _ & _ & _ & _ & _ & H4).
  rewrite Ha in Halp.
  destruct (decide _); [|discriminate]. symmetry in Halp.
  destruct (Forall2_lookup_r _ _ _ _ _ H4 Halp) as ([c L] & _ & Hscore).
  by apply choice_score_nonpos in Hscore.
Qed.

Lemma answer_log_probability_nonpos_witness :
  value (_evaluate_single two_token_evaluator 0 two_token_question)
  = Ok two_token_result /\
  answer_log_probability two_token_result = Some (alp_of two_token_result) /\
  alp_of two_token_result <= 0.
Proof.
  assert (H : value (_evaluate_single two_token_evaluator 0 two_token_question)
              = Ok two_token_result) by reflexivity.
  assert (Ha : answer_log_probability two_token_result
               = Some (alp_of two_token_result)) by reflexivity.
  split; [exact H|]. split; [exact Ha|].
  exact (answer_log_probability_nonpos _ _ _ _ _ H Ha).
Defined.

(** ** Corpus aggregation: what a returned result comes from *)

Lemma evaluate_loop_Ok (self : Evaluator) (qs : list (nat * Question.t))
    (res res' : EvaluationResult) (total total' : nat) :
  value (evaluate_loop self qs res total) = Ok (res', total') ->
  exists rs,
    Forall2 (fun iq r => value (_evaluate_single self iq.1 iq.2) = Ok r) qs rs /\
    totals res (combine rs (map snd qs)) = Ok res' /\
    total' = (total + total_question_length (map snd qs))%nat.
Proof.
  revert res total. induction qs as [|[i q] qs IH]; intros res total H.
  - injection H as <- <-. exists []. repeat split; [constructor|].
    unfold total_question_length. simpl. lia.
  - simpl evaluate_loop in H.
    apply value_ebind_Ok in H as (r & Hr & H).
    destruct (accumulate res r (Question.question_length q))
      as [res1|] eqn:Hacc; [|discriminate H].
    assert (H' : value (evaluate_loop self qs res1
                          (total + Question.question_length q))
                 = Ok (res', total')).
    { unfold value in *. by destruct (evaluate_loop self qs res1 _). }
    apply IH in H' as (rs & Hrs & Htot & ->).
    exists (r :: rs). split; [by constructor|]. split.
    + simpl. by rewrite Hacc.
    + unfold total_question_length. simpl. lia.
Qed.

Lemma totals_Ok_alps (rs : list EvaluationResult) (qs : list Question.t)
    (res res' : EvaluationResult) :
  List.length rs = List.length qs ->
  totals res (combine rs qs) = Ok res' ->
  exists alps, map answer_log_probability rs = map Some alps.
Proof.
  revert qs res. induction rs as [|r rs IH]; intros [|q qs] res Hlen H;
    simpl in *; try discriminate.
  - by exists [].
  - apply rbind_Ok in H as (res1 & Hacc & H).
    destruct (IH qs res1) as (alps & Halps); [lia | exact H |].
    unfold accumulate in Hacc.
    destruct (answer_log_probability res) as [a0|]; [|discriminate].
    destruct (answer_log_probability r) as [a|] eqn:Ha; [|discriminate].
    exists (a :: alps). simpl. by rewrite Halps.
Qed.

Lemma finalize_needs_counts (res r : EvaluationResult) (n t : nat) :
  finalize res n t = Ok r -> n <> 0%nat /\ t <> 0%nat.
Proof.
  unfold finalize, py_idiv, math_sqrt. intros H.
  destruct n as [|n]; [discriminate|]. split; [discriminate|].
  intros ->. simpl in H.
  repeat match type of H with
         | context [Rlt_dec ?x 0] => destruct (Rlt_dec x 0); simpl in H
         | context [match answer_log_probability res with _ => _ end] =>
             destruct (answer_log_probability res); simpl in H
         end; discriminate.
Qed.

Lemma evaluate_Ok_inv (self : Evaluator)
    (use_tqdm : bool) (r : EvaluationResult) :
  value (evaluate self use_tqdm) = Ok r ->
  questions self <> [] /\
  total_question_length (questions self) <> 0%nat /\
  exists rs alps,
    Forall2 (fun iq r => value (_evaluate_single self iq.1 iq.2) = Ok r)
            (enumerate (questions self)) rs /\
    map answer_log_probability rs = map Some alps /\
    corpus_statistics rs alps (questions self) r.
Proof.
  intros H. pose proof H as H0. unfold evaluate in H.
  replace (if use_tqdm then tqdm (questions self) else questions self)
    with (questions self) in H by (by destruct use_tqdm).
  apply value_ebind_Ok in H as ([res' total'] & Hloop & H).
  rewrite value_lift in H.
  apply evaluate_loop_Ok in Hloop as (rs & Hrs & Htot & ->).
  rewrite map_snd_enumerate in Htot. rewrite map_snd_enumerate in H.
  simpl in H. apply finalize_needs_counts in H as [Hn Ht].
  assert (Hlen : List.length rs = List.length (questions self)).
  { apply Forall2_length in Hrs. by rewrite enumerate_length in Hrs. }
  destruct (totals_Ok_alps _ _ _ _ Hlen Htot) as (alps & Halps).
  assert (Hne : questions self <> []) by (by destruct (questions self)).
  split; [exact Hne|]. split; [exact Ht|].
  exists rs, alps. split; [exact Hrs|]. split; [exact Halps|].
  destruct (evaluate_returns self use_tqdm rs alps Hne Hrs Halps Ht)
    as (r' & Hr' & Hstat).
  rewrite H0 in Hr'. by injection Hr' as <-.
Qed.

(** X14: [evaluate] returns only for a non-empty question list with a
    non-zero total prefix length in which every question was evaluated to
    a result with a log-probability; the returned result then holds the
    statistics of those per-question results.  No question is skipped. *)
Theorem evaluate_returns_only_complete_statistics (self : Evaluator)
    (use_tqdm : bool) (r : EvaluationResult) :
  value (evaluate self use_tqdm) = Ok r ->
  questions self <> [] /\
  total_question_length (questions self) <> 0%nat /\
  exists rs alps,
    Forall2 (fun iq r => value (_evaluate_single self iq.1 iq.2) = Ok r)
            (enumerate (questions self)) rs /\
    map answer_log_probability rs = map Some alps /\
    corpus_statistics rs alps (questions self) r.
Proof.
  intros H.
  destruct (evaluate_Ok_inv self use_tqdm r H)
    as (Hne & Ht & rs & alps & Hrs & Halps & Hstat).
  split; [exact Hne|]. split; [exact Ht|].
  exists rs, alps. split; [exact Hrs|]. split; [exact Halps | exact Hstat].
Qed.

Lemma evaluate_returns_only_complete_statistics_witness :
  (exists r, value (evaluate two_length_evaluator false) = Ok r) /\
  questions two_length_evaluator <> [].
Proof.
  destruct (evaluate_returns two_length_evaluator false two_length_results
              (map alp_of two_length_results)) as (r & Hr & _).
  - discriminate.
  - repeat constructor.
  - reflexivity.
  - discriminate.
  - split; [by exists r|].
    exact (proj1 (evaluate_returns_only_complete_statistics _ _ _ Hr)).
Defined.

(** ** Corpus aggregation: ranges and consistency of the statistics *)

Lemma sqrt_quarter : sqrt (1 / 4) = 1 / 2.
Proof.
  replace (1 / 4) with ((1 / 2) * (1 / 2)) by lra.
  apply sqrt_square. lra.
Qed.

(** X15: in every result [evaluate] returns, the accuracy lies between 0
    and 1 and the half-width of the confidence interval between 0 and
    0.98. *)
Theorem corpus_accuracy_and_confidence_ranges (self : Evaluator)
    (use_tqdm : bool) (r : EvaluationResult) :
  value (evaluate self use_tqdm) = Ok r ->
  0 <= accuracy r <= 1 /\ 0 <= accuracy_confidence r <= 0.98.
Proof.
  intros H.
  apply evaluate_Ok_inv in H
    as (Hne & _ & rs & alps & Hrs & _ & Hacc & Hconf & _).
  assert (Hlen : List.length rs = List.length (questions self)).
  { apply Forall2_length in Hrs. by rewrite enumerate_length in Hrs. }
  assert (H01 : Forall (fun x => x = 0 \/ x = 1) (map accuracy rs)).
  { apply Forall_fmap. eapply Forall2_Forall_r; [exact Hrs|].
    apply Forall_forall. intros [i q] _ r0 Hr0. by eapply single_accuracy_01. }
  apply rsum_01_bounds in H01. rewrite length_map, Hlen in H01.
  set (n := INR (List.length (questions self))) in *.
  assert (Hn : 1 <= n).
  { unfold n. destruct (questions self) as [|q qs]; [done|].
    change (List.length (q :: qs)) with (S (List.length qs)).
    rewrite S_INR. pose proof (pos_INR (List.length qs)). lra. }
  assert (Hi : 0 < / n) by (apply Rinv_0_lt_compat; lra).
  assert (Hp : 0 <= accuracy r <= 1).
  { rewrite Hacc. unfold Rdiv. split.
    - apply Rmult_le_pos; lra.
    - rewrite <- (Rinv_r n) by lra. apply Rmult_le_compat_r; lra. }
  split; [exact Hp|]. rewrite Hconf.
  set (p := accuracy r) in *.
  assert (Hv0 : 0 <= p * (1 - p) / n).
  { unfold Rdiv. apply Rmult_le_pos; [|lra]. apply Rmult_le_pos; lra. }
  assert (Hv1 : p * (1 - p) / n <= 1 / 4).
  { assert (Hq : p * (1 - p) <= 1 / 4).
    { pose proof (Rle_0_sqr (p - 1 / 2)) as Hsq. unfold Rsqr in Hsq. lra. }
    assert (Hq0 : 0 <= p * (1 - p)) by (apply Rmult_le_pos; lra).
    assert (Hi1 : / n <= 1).
    { rewrite <- Rinv_1. apply Rinv_le_contravar; lra. }
    unfold Rdiv at 1.
    apply Rle_trans with (p * (1 - p) * 1); [|lra].
    apply Rmult_le_compat_l; lra. }
  pose proof (sqrt_pos (p * (1 - p) / n)) as Hs0.
  assert (Hquarter : 0 <= 1 / 4) by lra.
  pose proof (sqrt_le_1 _ _ Hv0 Hquarter Hv1) as Hs1.
  rewrite sqrt_quarter in Hs1. lra.
Qed.

Lemma corpus_accuracy_and_confidence_ranges_witness :
  exists r, value (evaluate two_length_evaluator false) = Ok r /\
            0 <= accuracy r <= 1 /\ 0 <= accuracy_confidence r <= 0.98.
Proof.
  destruct (evaluate_returns two_length_evaluator false two_length_results
              (map alp_of two_length_results)) as (r & Hr & _).
  - discriminate.
  - repeat constructor.
  - reflexivity.
  - discriminate.
  - exists r. split; [exact Hr|].
    exact (corpus_accuracy_and_confidence_ranges _ _ _ Hr).
Defined.





(** X17: in every result [evaluate] returns for questions whose error
    metrics are each taken over at least one element, the error metrics
    are not negative and the mean answer log-probability is not
    positive. *)
Theorem corpus_result_signs (self : Evaluator) (use_tqdm : bool)
    (r : EvaluationResult) :
  value (evaluate self use_tqdm) = Ok r ->
  Forall (fun q => forall t, single_steps self q t -> measured_on_elements q t)
         (questions self) ->
  0 <= quantization_error r /\
  0 <= key_quantization_error r /\
  0 <= value_quantization_error r /\
  0 <= attention_error r /\
  0 <= logit_error r /\
  exists a, answer_log_probability r = Some a /\ a <= 0.
Proof.
  intros H Hne.
  apply evaluate_Ok_inv in H
    as (Hqs & _ & rs & alps & Hrs & Halps & Hstat).
  destruct Hstat as (_ & _ & Ha & Hq & Hkq & Hvq & Hae & Hle & _).
  assert (Hn : List.length (questions self) <> 0%nat)
    by (by destruct (questions self)).
  assert (Hsingle : Forall (fun r0 =>
            0 <= key_quantization_error r0 /\
            0 <= value_quantization_error r0 /\
            0 <= quantization_error r0 /\
            0 <= attention_error r0 /\
            0 <= logit_error r0) rs).
  { eapply Forall2_Forall_r; [exact Hrs|].
    rewrite <- (map_snd_enumerate (questions self)) in Hne.
    apply Forall_fmap in Hne.
    eapply Forall_impl; [exact Hne|].
    intros [i q] Hq0 r0 Hr0. simpl in Hq0.
    apply value_Ok_run, _evaluate_single_run in Hr0
      as (t & devs & Hsteps & _ & -> & _).
    destruct (run_errors_ge_0 self q t Hsteps (Hq0 t Hsteps))
      as (Hk & Hv & Hat & Hl).
    simpl. repeat split; lra. }
  assert (Hmean : forall f : EvaluationResult -> R,
            Forall (fun r0 => 0 <= f r0) rs ->
            0 <= rsum (map f rs) / INR (List.length (questions self))).
  { intros f Hf. apply mean_nonneg; [exact Hn|].
    apply rsum_nonneg. by apply Forall_fmap. }
  rewrite Hq, Hkq, Hvq, Hae, Hle.
  repeat (split; [apply Hmean; eapply Forall_impl; [exact Hsingle|];
                  by intros ? (? & ? & ? & ? & ?)|]).
  exists (rsum alps / INR (List.length (questions self))).
  split; [exact Ha|].
  assert (Hneg : Forall (fun a => a <= 0) alps).
  { apply Forall_forall. intros a Hin.
    apply list_elem_of_lookup in Hin as (k & Hk).
    assert (Hk' : map Some alps !! k = Some (Some a))
      by (by rewrite list_lookup_fmap, Hk).
    rewrite <- Halps, list_lookup_fmap in Hk'.
    destruct (rs !! k) as [r0|] eqn:Hr0; [|done]. simpl in Hk'.
    injection Hk' as Hk'.
    destruct (Forall2_lookup_r _ _ _ _ _ Hrs Hr0) as ([i q] & _ & Hsingle0).
    by eapply answer_lp_le_0. }
  apply rsum_nonpos in Hneg.
  pose proof (mean_nonneg (- rsum alps) (List.length (questions self))
                Hn ltac:(lra)) as Hm.
  unfold Rdiv in *. lra.
Qed.

Lemma two_length_runs_measured :
  Forall (fun q => forall t, single_steps two_length_evaluator q t ->
                             measured_on_elements q t)
         (questions two_length_evaluator).
Proof.
  constructor; [|constructor; [|constructor]]; intros t; measure_toy_run t.
Qed.

Lemma corpus_result_signs_witness :
  Forall (fun q => forall t, single_steps two_length_evaluator q t ->
                             measured_on_elements q t)
         (questions two_length_evaluator) /\
  exists r, value (evaluate two_length_evaluator false) = Ok r /\
    0 <= quantization_error r /\
    0 <= key_quantization_error r /\
    0 <= value_quantization_error r /\
    0 <= attention_error r /\
    0 <= logit_error r /\
    exists a, answer_log_probability r = Some a /\ a <= 0.
Proof.
  destruct (evaluate_returns two_length_evaluator false two_length_results
              (map alp_of two_length_results)) as (r & Hr & _).
  - discriminate.
  - repeat constructor.
  - reflexivity.
  - discriminate.
  - split; [exact two_length_runs_measured|].
    exists r. split; [exact Hr|].
    exact (corpus_result_signs _ _ _ Hr two_length_runs_measured).
Defined.

(** ** Corpus aggregation: model calls and failures *)

Lemma evaluate_loop_calls (self : Evaluator) (qs : list (nat * Question.t))
    (res : EvaluationResult) (total : nat) (out : EvaluationResult * nat)
    (evs : list event) :
  evaluate_loop self qs res total = (Ok out, evs) ->
  forward_calls evs = (2 * List.length qs)%nat.
Proof.
  revert res total evs. induction qs as [|[i q] qs IH]; intros res total evs H.
  - by injection H as _ <-.
  - cbn [evaluate_loop] in H.
    apply ebind_Ok in H as (r & e1 & e2 & H1 & H & ->).
    apply ebind_Ok in H as (res1 & e3 & e4 & H2 & H & ->).
    apply lift_Ok in H2 as [_ ->].
    apply single_forward_calls in H1.
    apply IH in H. rewrite !forward_calls_app, H1, H. simpl. lia.
Qed.

(** X18: an [evaluate] that returns has called the model exactly twice per
    question. *)
Theorem evaluate_calls_model_twice_per_question (self : Evaluator)
    (use_tqdm : bool) (r : EvaluationResult) (evs : list event) :
  evaluate self use_tqdm = (Ok r, evs) ->
  forward_calls evs = (2 * List.length (questions self))%nat.
Proof.
  unfold evaluate. intros H.
  replace (if use_tqdm then tqdm (questions self) else questions self)
    with (questions self) in H by (by destruct use_tqdm).
  apply ebind_Ok in H as ([res total] & e1 & e2 & H1 & H & ->).
  apply lift_Ok in H as [_ ->].
  apply evaluate_loop_calls in H1.
  rewrite enumerate_length in H1.
  rewrite forward_calls_app, H1. unfold forward_calls. simpl. lia.
Qed.

Lemma evaluate_calls_model_twice_per_question_witness :
  exists r,
    evaluate two_length_evaluator false
    = (Ok r, events (evaluate two_length_evaluator false)) /\
    forward_calls (events (evaluate two_length_evaluator false)) = 4%nat.
Proof.
  destruct (evaluate_returns two_length_evaluator false two_length_results
              (map alp_of two_length_results)) as (r & Hr & _).
  - discriminate.
  - repeat constructor.
  - reflexivity.
  - discriminate.
  - exists r. apply value_Ok_run in Hr. split; [exact Hr|].
    exact (evaluate_calls_model_twice_per_question _ _ _ _ Hr).
Defined.

Lemma enumerate_from_app {A} (k : nat) (l1 l2 : list A) :
  combine (seq k (List.length (l1 ++ l2))) (l1 ++ l2)
  = combine (seq k (List.length l1)) l1
    ++ combine (seq (k + List.length l1) (List.length l2)) l2.
Proof.
  revert k. induction l1 as [|a l1 IH]; intros k; simpl.
  - by rewrite Nat.add_0_r.
  - rewrite IH. by replace (S k + List.length l1)%nat
                     with (k + S (List.length l1))%nat by lia.
Qed.

Lemma evaluate_loop_first_failure (self : Evaluator)
    (done : list (nat * Question.t)) (rs : list EvaluationResult)
    (alps : list R) (i : nat) (q : Question.t)
    (rest : list (nat * Question.t)) (res : EvaluationResult) (a0 : R)
    (total : nat) (e : exn) :
  Forall2 (fun iq r => value (_evaluate_single self iq.1 iq.2) = Ok r) done rs ->
  map answer_log_probability rs = map Some alps ->
  answer_log_probability res = Some a0 ->
  value (_evaluate_single self i q) = Err e ->
  value (evaluate_loop self (done ++ (i, q) :: rest) res total) = Err e.
Proof.
  intros Hdone. revert alps res a0 total.
  induction Hdone as [|[j p] r done rs Hr _ IH];
    intros alps res a0 total Halps Hres Hq.
  - simpl app. cbn [evaluate_loop]. by apply value_ebind_Err.
  - destruct alps as [|a alps]; [discriminate|].
    injection Halps as Ha Halps. simpl in Hr.
    simpl app. cbn [evaluate_loop].
    rewrite (value_ebind _ _ _ Hr). cbv beta.
    assert (Hacc : exists res1,
              accumulate res r (Question.question_length p) = Ok res1 /\
              answer_log_probability res1 = Some (a0 + a)).
    { unfold accumulate. rewrite Hres, Ha. simpl. by eexists. }
    destruct Hacc as (res1 & Hacc & Hres1).
    rewrite (value_ebind _ _ res1) by (by rewrite value_lift).
    by apply (IH alps res1 (a0 + a)).
Qed.

(** X19: [evaluate] stops at the first question whose evaluation fails and
    raises that question's exception, whatever questions follow. *)
Theorem evaluate_raises_first_failure (self : Evaluator) (use_tqdm : bool)
    (done : list Question.t) (q : Question.t) (rest : list Question.t)
    (rs : list EvaluationResult) (alps : list R) (e : exn) :
  questions self = done ++ q :: rest ->
  Forall2 (fun iq r => value (_evaluate_single self iq.1 iq.2) = Ok r)
          (enumerate done) rs ->
  map answer_log_probability rs = map Some alps ->
  value (_evaluate_single self (List.length done) q) = Err e ->
  value (evaluate self use_tqdm) = Err e.
Proof.
  intros Hqs Hdone Halps Hq. unfold evaluate.
  replace (if use_tqdm then tqdm (questions self) else questions self)
    with (questions self) by (by destruct use_tqdm).
  apply value_ebind_Err. rewrite Hqs. unfold enumerate.
  rewrite enumerate_from_app. simpl.
  by apply (evaluate_loop_first_failure self _ rs alps _ _ _ _ 0).
Qed.

Lemma evaluate_raises_first_failure_witness :
  questions failing_evaluator
  = [two_token_question] ++ empty_choice_question :: [two_token_question] /\
  value (_evaluate_single failing_evaluator 1 empty_choice_question)
  = Err RuntimeError /\
  value (evaluate failing_evaluator false) = Err RuntimeError.
Proof.
  split; [reflexivity|]. split; [reflexivity|].
  apply (evaluate_raises_first_failure failing_evaluator false
           [two_token_question] empty_choice_question [two_token_question]
           [two_token_result] [alp_of two_token_result] RuntimeError).
  - reflexivity.
  - repeat constructor.
  - reflexivity.
  - reflexivity.
Defined.

Lemma finalize_zero_tokens (res : EvaluationResult) (n : nat) (a : R) :
  n <> 0%nat ->
  answer_log_probability res = Some a ->
  0 <= accuracy res <= INR n ->
  finalize res n 0 = Err ZeroDivisionError.
Proof.
  intros Hn Ha Hacc. unfold finalize, py_idiv. rewrite Ha.
  repeat (rewrite py_div_int_Ok by assumption; simpl).
  unfold math_sqrt.
  match goal with
  | |- context [Rlt_dec ?x 0] => destruct (Rlt_dec x 0) as [Hneg|_]
  end; [|reflexivity].
  exfalso. apply (Rlt_not_le _ _ Hneg). apply variance_nonneg; [|exact Hacc].
  apply lt_0_INR. lia.
Qed.

(** X20: when every question is evaluated but the prefix lengths add up to
    zero, [evaluate] raises [ZeroDivisionError] at the division by the
    token count. *)
Theorem evaluate_without_prefix_tokens_raises (self : Evaluator)
    (use_tqdm : bool) (rs : list EvaluationResult) (alps : list R) :
  questions self <> [] ->
  Forall2 (fun iq r => value (_evaluate_single self iq.1 iq.2) = Ok r)
          (enumerate (questions self)) rs ->
  map answer_log_probability rs = map Some alps ->
  total_question_length (questions self) = 0%nat ->
  value (evaluate self use_tqdm) = Err ZeroDivisionError.
Proof.
  intros Hne Hrs Halps Ht.
  assert (Hlen : List.length rs = List.length (questions self)).
  { apply Forall2_length in Hrs. by rewrite enumerate_length in Hrs. }
  assert (H01 : Forall (fun x => x = 0 \/ x = 1) (map accuracy rs)).
  { apply Forall_fmap. eapply Forall2_Forall_r; [exact Hrs|].
    apply Forall_forall. intros [i q] _ r Hr. by eapply single_accuracy_01. }
  apply rsum_01_bounds in H01. rewrite length_map, Hlen in H01.
  destruct (totals_answer_log_probability rs alps (questions self)
              EvaluationResult_default 0 eq_refl Halps Hlen)
    as (res' & Hres' & Halp).
  pose proof (evaluate_loop_totals self _ rs EvaluationResult_default 0 Hrs)
    as Hloop.
  rewrite map_snd_enumerate, Hres', Ht in Hloop. simpl in Hloop.
  pose proof (totals_adds_up _ adds_up_accuracy _ _ _ _ Hlen Hres') as Eacc.
  simpl in Eacc. rewrite Rplus_0_l in Eacc.
  unfold evaluate.
  replace (if use_tqdm then tqdm (questions self) else questions self)
    with (questions self) by (by destruct use_tqdm).
  rewrite (value_ebind _ _ _ Hloop). rewrite value_lift.
  eapply finalize_zero_tokens.
  - by destruct (questions self).
  - exact Halp.
  - by rewrite Eacc.
Qed.

Lemma evaluate_without_prefix_tokens_raises_witness :
  questions prefixless_evaluator <> [] /\
  total_question_length (questions prefixless_evaluator) = 0%nat /\
  value (evaluate prefixless_evaluator false) = Err ZeroDivisionError.
Proof.
  split; [discriminate|]. split; [reflexivity|].
  apply (evaluate_without_prefix_tokens_raises prefixless_evaluator false
           prefixless_results (map alp_of prefixless_results)).
  - discriminate.
  - repeat constructor.
  - reflexivity.
  - reflexivity.
Defined.

(** ** Result cache: what it reads and what it writes *)














Lemma drawing_then_failing_run :
  evaluate drawing_then_failing_evaluator false
  = (Err RuntimeError, drawing_then_failing_events).
Proof. reflexivity. Qed.


(** The case the hypothesis on the path excludes below: a cache file at
    the path of a figure is replaced by the figure when the run saves its
    diagnostics and a later question fails. *)
Example figure_replaces_cache_file :
  (cached_evaluate drawing_then_failing_evaluator
     (Some "figs/cache_std.png"%string) false
     (<["figs/cache_std.png"%string := Records []]> ∅)).2
    !! "figs/cache_std.png"%string
  = Some Figure.
Proof.
  rewrite (cached_evaluate_lookup _ _ _ _ []) by apply lookup_insert_eq.
  simpl find. by rewrite drawing_then_failing_run.
Qed.

Lemma cache_store_hit :
  cached_evaluate two_token_evaluator (Some cache_path) false cache_store
  = ((Ok two_token_result, []), cache_store).
Proof.
  rewrite (cached_evaluate_lookup _ _ _ _ [stale_entry; first_entry; second_entry])
    by apply lookup_insert_eq.
  change [stale_entry; first_entry; second_entry]
    with ([stale_entry] ++ first_entry :: [second_entry]).
  rewrite (find_first_match (matches two_token_evaluator)
             [stale_entry] [second_entry] first_entry).
  - reflexivity.
  - constructor; [|constructor]. apply bool_decide_eq_false.
    exact stale_entry_mismatches.
  - apply matches_own_params.
Qed.






(** X25: the fingerprint holds the version, the model name, the number of
    questions and the two quantizers' parameters, and nothing else: an
    evaluator that agrees on these is served the cached result of another
    one, without any model call, even if its questions, its device or its
    diagnostics flag differ. *)
Theorem cache_hit_ignores_everything_but_the_fingerprint
    (self self' : Evaluator) (path : string) (use_tqdm use_tqdm' : bool)
    (fs fs' : gmap string file) (r : EvaluationResult) (evs : list event) :
  version self' = version self ->
  Model.name_or_path (model self') = Model.name_or_path (model self) ->
  List.length (questions self') = List.length (questions self) ->
  Quantizer.params (key_quantizer self')
  = Quantizer.params (key_quantizer self) ->
  Quantizer.params (value_quantizer self')
  = Quantizer.params (value_quantizer self) ->
  cached_evaluate self (Some path) use_tqdm fs = ((Ok r, evs), fs') ->
  cached_evaluate self' (Some path) use_tqdm' fs' = ((Ok r, []), fs').
Proof.
  intros Hv Hm Hn Hk Hvq H.
  apply (cached_evaluate_round_trip self self' path use_tqdm use_tqdm'
           fs fs' r evs H).
  unfold params. rewrite Hv, Hm, Hn, Hk, Hvq. apply params_eq_refl.
Qed.

Lemma cache_hit_ignores_everything_but_the_fingerprint_witness :
  questions other_corpus_evaluator <> questions two_token_evaluator /\
  cached_evaluate two_token_evaluator (Some cache_path) false cache_store
  = ((Ok two_token_result, []), cache_store) /\
  cached_evaluate other_corpus_evaluator (Some cache_path) true cache_store
  = ((Ok two_token_result, []), cache_store).
Proof.
  split; [discriminate|]. split; [exact cache_store_hit|].
  exact (cache_hit_ignores_everything_but_the_fingerprint
           two_token_evaluator other_corpus_evaluator cache_path false true
           cache_store cache_store two_token_result []
           eq_refl eq_refl eq_refl eq_refl eq_refl cache_store_hit).
Defined.

(** X26: each of the five components of the fingerprint counts: when
    every stored record differs from the evaluator in its version, its
    model name, its question count or, under Python's [==], in the
    parameters of one of the quantizers, no stored result is returned;
    [evaluate] runs, and its result is appended to the store. *)
Theorem changed_parameters_force_evaluation (self : Evaluator)
    (path : string) (use_tqdm : bool) (fs : gmap string file)
    (entries : list cache_entry) :
  fs !! path = Some (Records entries) ->
  Forall (fun entry =>
            p_version (entry_params entry) <> version self \/
            p_model_name (entry_params entry)
            <> Model.name_or_path (model self) \/
            p_question_count (entry_params entry)
            <> List.length (questions self) \/
            ~ dict_eq (p_key_quantizer (entry_params entry))
                      (Quantizer.params (key_quantizer self)) \/
            ~ dict_eq (p_value_quantizer (entry_params entry))
                      (Quantizer.params (value_quantizer self))) entries ->
  cached_evaluate self (Some path) use_tqdm fs
  = match evaluate self use_tqdm with
    | (Ok res, evs) =>
        ((Ok res, evs),
         <[path := Records (entries ++ [{| entry_params := params self;
                                           entry_results := res |}])]>
           (saved_figures evs fs))
    | (Err e, evs) => ((Err e, evs), saved_figures evs fs)
    end.
Proof.
  intros Hfs Hdiff.
  rewrite (cached_evaluate_lookup _ _ _ _ _ Hfs).
  rewrite find_no_match; [reflexivity|].
  eapply Forall_impl; [exact Hdiff|].
  intros entry Hentry. apply bool_decide_eq_false.
  intros (H1 & H2 & H3 & H4 & H5). cbv beta in Hentry. simpl in *.
  by destruct Hentry as [H|[H|[H|[H|H]]]].
Qed.

Lemma changed_parameters_force_evaluation_witness :
  single_record_store !! cache_path = Some (Records [first_entry]) /\
  value (cached_evaluate requantized_evaluator (Some cache_path) false
           single_record_store).1
  = value (evaluate requantized_evaluator false).
Proof.
  assert (Hfs : single_record_store !! cache_path
                = Some (Records [first_entry])) by apply lookup_insert_eq.
  split; [exact Hfs|].
  rewrite (changed_parameters_force_evaluation
             requantized_evaluator cache_path false single_record_store
             [first_entry] Hfs).
  - by destruct (evaluate requantized_evaluator false) as [[res|e] evs].
  - constructor; [|constructor]. right. right. right. left. simpl.
    intros H. specialize (H "n_bits"%string).
    rewrite !lookup_singleton_eq in H. simpl in H.
    apply eq_IZR in H. discriminate H.
Defined.
